(** * Atlas: strategy guard rail and walk-forward backtester

    A shallow embedding of [src/backtester.py] (class
    [WalkForwardBacktester]) and [src/guard_rail.py] (class
    [StaticGuardRail]), with the properties the specification states
    about them.

    Conventions of the embedding.
    - A timestamp is a whole number of days since 1970-01-01 (the price
      history is daily); [pd.DateOffset(months=n)] is calendar arithmetic
      on the proleptic Gregorian calendar.
    - A floating-point number is an exact rational; [None] in an
      [option Q] stands for NaN.
    - A pandas Series or frame column is the list of its rows, each row a
      label paired with its value, in index order.
    - A Python exception is a value of type [exn]; a call that may raise
      returns a [result].  An exception has a class, which says whether an
      [except Exception] clause catches it, and a message, unless its
      [__str__] raises in its turn.  A call that never returns is a
      [result] too: see [NonTermination].
    - A text is the list of its characters, each a code point below 256. *)

From Stdlib Require Import ZArith QArith Qabs Qminmax Lqa String Ascii.
From stdpp Require Import base tactics option list sorting gmap strings pretty.

#[local] Open Scope Z_scope.
#[local] Set Warnings "-register-all".

(** ** Exceptions and results *)

(** The classes of the exceptions.  [SyntaxError] stands for itself and its
    subclasses, [OtherError] for any other class that derives from
    [Exception].  [SystemExit] and [KeyboardInterrupt] derive from
    [BaseException] only.  [NonTermination] is no Python class: it marks a
    call that never returns (a loop without end in a submission); nothing
    catches it, so it goes up through every caller as an exception outside
    [Exception] does, and [Raise] of it reads: the call does not return. *)
Inductive exn_class : Set :=
| ValueError | RuntimeError | IndexError | SyntaxError | TypeError | OtherError
| RecursionError | SystemExit | KeyboardInterrupt | NonTermination.

#[global] Instance exn_class_eq_dec : EqDecision exn_class.
Proof. solve_decision. Defined.

(** An exception with its message, or one whose [__str__] raises. *)
Inductive exn : Set :=
| mk_exn (kind : exn_class) (msg : string)
| mk_unprintable (kind : exn_class) (raised : exn).

Definition exn_kind (e : exn) : exn_class :=
  match e with
  | mk_exn kind _ | mk_unprintable kind _ => kind
  end.

(** The message of an exception that has one. *)
Definition exn_msg (e : exn) : string :=
  match e with
  | mk_exn _ msg => msg
  | mk_unprintable _ _ => ""
  end.

(** [isinstance(e, Exception)]: what an [except Exception] clause catches. *)
Definition is_exception (e : exn) : bool :=
  match exn_kind e with
  | SystemExit | KeyboardInterrupt | NonTermination => false
  | _ => true
  end.

Inductive result (A : Type) : Type :=
| Ok (a : A)
| Raise (e : exn).
Arguments Ok {A} a.
Arguments Raise {A} e.

(** Sequencing: the first exception raised ends the computation. *)
#[global] Instance result_ret : MRet result := λ A a, Ok a.
#[global] Instance result_bind : MBind result := λ A B k r,
  match r with
  | Ok a => k a
  | Raise e => Raise e
  end.

Definition is_ok {A} (r : result A) : bool :=
  match r with Ok _ => true | Raise _ => false end.

(** [str(e)], also what an f-string does with [{e}]. *)
Definition str_of (e : exn) : result string :=
  match e with
  | mk_exn _ msg => Ok msg
  | mk_unprintable _ raised => Raise raised
  end.

(** [print], on the text it is given: the stream may refuse it (a character
    it cannot encode, a closed pipe). *)
Definition console := string → result unit.

(** ** Calendar arithmetic behind [pd.DateOffset(months=n)] *)

Module Calendar.

Abbreviation Timestamp := Z (only parsing).

Definition is_leap (y : Z) : bool :=
  (y mod 4 =? 0) && (negb (y mod 100 =? 0) || (y mod 400 =? 0)).

Definition days_in_month (y m : Z) : Z :=
  if m =? 2 then (if is_leap y then 29 else 28)
  else if (m =? 4) || (m =? 6) || (m =? 9) || (m =? 11) then 30
  else 31.

(** Day number of the civil date [y]-[m]-[d]. *)
Definition days_from_civil (y m d : Z) : Z :=
  let y' := if m <=? 2 then y - 1 else y in
  let era := y' / 400 in
  let yoe := y' - era * 400 in
  let mp := if 2 <? m then m - 3 else m + 9 in
  let doy := (153 * mp + 2) / 5 + d - 1 in
  let doe := yoe * 365 + yoe / 4 - yoe / 100 + doy in
  era * 146097 + doe - 719468.

(** Civil date of a day number. *)
Definition civil_from_days (z : Z) : Z * Z * Z :=
  let z' := z + 719468 in
  let era := z' / 146097 in
  let doe := z' - era * 146097 in
  let yoe := (doe - doe / 1460 + doe / 36524 - doe / 146096) / 365 in
  let doy := doe - (365 * yoe + yoe / 4 - yoe / 100) in
  let mp := (5 * doy + 2) / 153 in
  let d := doy - (153 * mp + 2) / 5 + 1 in
  let m := if mp <? 10 then mp + 3 else mp - 9 in
  let y := yoe + era * 400 in
  (if m <=? 2 then y + 1 else y, m, d).

(** [t + pd.DateOffset(months=n)]: shift the month, keep the day of the
    month, clipped to the length of the month reached. *)
Definition add_months (n : Z) (t : Timestamp) : Timestamp :=
  let '(y, m, d) := civil_from_days t in
  let total := y * 12 + (m - 1) + n in
  let y' := total / 12 in
  let m' := total mod 12 + 1 in
  days_from_civil y' m' (Z.min d (days_in_month y' m')).

Definition date (y m d : Z) : Timestamp := days_from_civil y m d.

End Calendar.

Export Calendar.

(** ** Walk-forward windows *)

Record Config : Set := mk_config {
  train_months : Z;
  validation_months : Z;
  test_months : Z;
  roll_months : Z;
  bid_ask_spread : Q;
  slippage : Q
}.

(** The defaults of [WalkForwardBacktester.__init__]. *)
Definition default_config : Config :=
  {| train_months := 36; validation_months := 6; test_months := 1;
     roll_months := 1; bid_ask_spread := 1 # 1000; slippage := 1 # 1000 |}.

Record Window : Set := mk_window {
  train_start : Timestamp;
  train_end : Timestamp;
  val_start : Timestamp;
  val_end : Timestamp;
  test_start : Timestamp;
  test_end : Timestamp
}.

(** [index[mask][0]] and [index[mask][-1]]: both raise [IndexError] on an
    empty selection. *)
Definition index_error : exn :=
  mk_exn IndexError "index 0 is out of bounds for axis 0 with size 0".

Definition first_of (l : list Timestamp) : result Timestamp :=
  match head l with Some t => Ok t | None => Raise index_error end.

Definition last_of (l : list Timestamp) : result Timestamp :=
  match last l with Some t => Ok t | None => Raise index_error end.

(** The calendar boundaries of the window that starts at [current_start]. *)
Definition train_end_of (c : Config) (current_start : Timestamp) : Timestamp :=
  add_months (train_months c) current_start.
Definition val_end_of (c : Config) (current_start : Timestamp) : Timestamp :=
  add_months (validation_months c) (train_end_of c current_start).
Definition test_end_of (c : Config) (current_start : Timestamp) : Timestamp :=
  add_months (test_months c) (val_end_of c current_start).

(** The body of the loop after the data check: snap the six boundaries to
    dates of the index. *)
Definition snap_window (c : Config) (index : list Timestamp)
    (current_start : Timestamp) : result Window :=
  let train_end := train_end_of c current_start in
  let val_end := val_end_of c current_start in
  let test_end := test_end_of c current_start in
  train_start_actual ← first_of (filter (λ t, current_start ≤ t) index);
  train_end_actual ← last_of (filter (λ t, t ≤ train_end) index);
  val_start_actual ← first_of (filter (λ t, train_end_actual < t) index);
  val_end_actual ← last_of (filter (λ t, t ≤ val_end) index);
  test_start_actual ← first_of (filter (λ t, val_end_actual < t) index);
  test_end_actual ← last_of (filter (λ t, t ≤ test_end) index);
  Ok {| train_start := train_start_actual; train_end := train_end_actual;
        val_start := val_start_actual; val_end := val_end_actual;
        test_start := test_start_actual; test_end := test_end_actual |}.

(** The [while True] loop.  [fuel] bounds the number of iterations; [None]
    means the bound was reached before the loop left. *)
Fixpoint windows_loop (fuel : nat) (c : Config) (index : list Timestamp)
    (data_end current_start : Timestamp) (windows : list Window)
    : option (result (list Window)) :=
  match fuel with
  | O => None
  | S fuel' =>
      if data_end <? test_end_of c current_start then Some (Ok windows)
      else
        match snap_window c index current_start with
        | Raise e => Some (Raise e)
        | Ok window =>
            windows_loop fuel' c index data_end
              (add_months (roll_months c) current_start) (windows ++ [window])
        end
  end.

Definition generate_walk_forward_windows (fuel : nat) (c : Config)
    (index : list Timestamp) : option (result (list Window)) :=
  match head index, last index with
  | Some data_start, Some data_end =>
      windows_loop fuel c index data_end data_start []
  | _, _ => Some (Raise index_error)
  end.

(** The strict chain the specification asks of a window. *)
Definition strictly_ordered (w : Window) : Prop :=
  train_start w < train_end w ∧ train_end w < val_start w ∧
  val_start w < val_end w ∧ val_end w < test_start w ∧
  test_start w < test_end w.

Definition boundaries (w : Window) : list Timestamp :=
  [train_start w; train_end w; val_start w; val_end w; test_start w; test_end w].

(** The start of the [k]-th window: [roll_months] added [k] times. *)
Definition window_start (c : Config) (data_start : Timestamp) (k : nat) : Timestamp :=
  Nat.iter k (add_months (roll_months c)) data_start.

(** The index has two distinct dates [a < b] with [lo ≤ a] (or [lo < a])
    and [b ≤ hi]. *)
Definition two_dates_in (index : list Timestamp) (lo hi : Timestamp) : Prop :=
  ∃ a b, a ∈ index ∧ b ∈ index ∧ lo ≤ a ∧ a < b ∧ b ≤ hi.
Definition two_dates_after (index : list Timestamp) (lo hi : Timestamp) : Prop :=
  ∃ a b, a ∈ index ∧ b ∈ index ∧ lo < a ∧ a < b ∧ b ≤ hi.


(** *** Sample price indexes *)

(** Sixty monthly bars, dated the first of each month from January 2015. *)
Definition monthly_index : list Timestamp :=
  (λ k : nat, add_months (Z.of_nat k) (date 2015 1 1)) <$> seq 0 60.

(** A hundred daily bars from 1 January 2020. *)
Definition daily_index : list Timestamp :=
  (λ k : nat, date 2020 1 1 + Z.of_nat k) <$> seq 0 100.

(** One-month spans, for the short daily sample. *)
Definition monthly_config : Config :=
  {| train_months := 1; validation_months := 1; test_months := 1;
     roll_months := 1; bid_ask_spread := 1 # 1000; slippage := 1 # 1000 |}.

(** ** Series *)

Module Pandas.

(** A float: an exact rational, or [None] for NaN. *)
Abbreviation float := (option Q) (only parsing).

Abbreviation Series := (list (Z * option Q)) (only parsing).

Definition index (s : Series) : list Timestamp := s.*1.
Definition values (s : Series) : list float := s.*2.

(** Arithmetic propagates NaN. *)
Definition lift1 (f : Q → Q) (x : float) : float := f <$> x.
Definition lift2 (f : Q → Q → Q) (x y : float) : float :=
  match x, y with
  | Some a, Some b => Some (f a b)
  | _, _ => None
  end.

Definition is_zero (q : Q) : bool := Qnum q =? 0.

(** A float of this development is a finite number or NaN.  A quotient by
    zero, which is infinite or NaN in the program, is merged with NaN here:
    the returns computed below are those of the program on prices without
    a zero, and the statements about them assume such prices. *)
Definition fdiv (x y : float) : float :=
  match x, y with
  | Some a, Some b => if is_zero b then None else Some (a / b)%Q
  | _, _ => None
  end.

(** Element-wise operations on series that share their index. *)
Definition map_values (f : float → float) (s : Series) : Series :=
  prod_map id f <$> s.
Definition zip_values (f : float → float → float) (a b : Series) : Series :=
  zip_with (λ ra rb, (ra.1, f ra.2 rb.2)) a b.

(** [s.shift(1)]: every value moves one row down, the first becomes NaN. *)
Fixpoint shift_from (prev : float) (s : Series) : Series :=
  match s with
  | [] => []
  | (t, x) :: s' => (t, prev) :: shift_from x s'
  end.
Definition shift1 (s : Series) : Series := shift_from None s.

(** [s.diff()], [s.pct_change()], [s.fillna(v)], [np.abs(s)]. *)
Definition diff (s : Series) : Series := zip_values (lift2 Qminus) s (shift1 s).
Definition pct_change (s : Series) : Series :=
  map_values (lift1 (λ r, r - 1)%Q) (zip_values fdiv s (shift1 s)).
Definition fillna (v : Q) (s : Series) : Series :=
  map_values (λ x, Some (default v x)) s.
Definition abs (s : Series) : Series := map_values (lift1 Qabs) s.
Definition neg (s : Series) : Series := map_values (lift1 Qopp) s.
Definition scale (k : Q) (s : Series) : Series := map_values (lift1 (λ q, q * k)%Q) s.

(** [np.clip(s, lo, hi)] is [minimum(maximum(s, lo), hi)]. *)
Definition clip_value (lo hi : Q) (q : Q) : Q := Qmin (Qmax q lo) hi.
Definition clip (lo hi : Q) (s : Series) : Series :=
  map_values (lift1 (clip_value lo hi)) s.

(** [data.loc[start:end]] on a date index: both ends are included. *)
Definition loc_slice (start_date end_date : Timestamp) (s : Series) : Series :=
  filter (λ r, start_date ≤ r.1 ∧ r.1 ≤ end_date) s.

(** *** [reindex(target, method='ffill')] *)

(** The value a forward fill gives the label [t]: that of the last row
    labelled at or before [t] on an increasing index, and of the last row
    labelled at or after [t] on a decreasing one; NaN when there is none. *)
Definition pad_increasing (s : Series) (t : Timestamp) : float :=
  r ← last (filter (λ r, r.1 ≤ t) s); r.2.
Definition pad_decreasing (s : Series) (t : Timestamp) : float :=
  r ← last (filter (λ r, t ≤ r.1) s); r.2.

Definition duplicate_labels_error : exn :=
  mk_exn ValueError "cannot reindex on an axis with duplicate labels".
Definition not_monotonic_error : exn :=
  mk_exn ValueError "index must be monotonic increasing or decreasing".

(** A series that already carries the target index is returned as it is.
    Otherwise its labels must be free of duplicates and monotonic. *)
Definition reindex_ffill (s : Series) (target : list Timestamp) : result Series :=
  if decide (index s = target) then Ok s
  else if negb (bool_decide (NoDup (index s))) then Raise duplicate_labels_error
  else if bool_decide (StronglySorted Z.le (index s)) then
    Ok ((λ t, (t, pad_increasing s t)) <$> target)
  else if bool_decide (StronglySorted Z.ge (index s)) then
    Ok ((λ t, (t, pad_decreasing s t)) <$> target)
  else Raise not_monotonic_error.

(** *** [pd.Series(obj, index=target)] *)

(** What a strategy may bind to [signals]. *)
Inductive pyval : Type :=
| PySeries (s : Series)                 (* a Series of numbers *)
| PyScalar (x : float)                  (* a number; [None] too gives NaN *)
| PyList (xs : list float)              (* a list or array of numbers *)
| PyDict (d : list (Timestamp * float)) (* a dict from dates to numbers *)
| PyRejected (e : exn).                 (* an object pandas or numpy raise [e] on *)

Definition length_mismatch_error : exn :=
  mk_exn ValueError "Length of values does not match length of index".

Definition dict_get (d : list (Timestamp * float)) (t : Timestamp) : float :=
  r ← last (filter (λ r, r.1 = t) d); r.2.

Definition make_series (v : pyval) (target : list Timestamp) : result Series :=
  match v with
  | PySeries s => Ok s
  | PyScalar x => Ok ((λ t, (t, x)) <$> target)
  | PyList xs =>
      if decide (length xs = length target) then Ok (zip target xs)
      else Raise length_mismatch_error
  | PyDict d => Ok ((λ t, (t, dict_get d t)) <$> target)
  | PyRejected e => Raise e
  end.

End Pandas.

Export Pandas.

(** ** The sandbox: [execute_strategy] *)

(** The outcome of [exec(strategy_code, execution_env)]: it raised (any
    exception, [SystemExit] included) or did not return ([NonTermination]),
    or it ran to its end and left [signals] bound or not in the namespace. *)
Inductive exec_outcome : Type :=
| ExecRaised (e : exn)
| ExecDone (signals : option pyval).

(** The Python interpreter, on a strategy text and the price series bound
    to [price] and [data] in the namespace. *)
Definition interpreter := string → Series → exec_outcome.

(** The exception the sandbox raises for a missing [signals] binding, and
    the one the [except Exception] clause raises for an exception it caught
    and whose message it could read. *)
Definition missing_signals : exn :=
  mk_exn ValueError "Strategy must define 'signals' variable".
Definition execution_failed (e : exn) : exn :=
  mk_exn RuntimeError ("Strategy execution failed: " +:+ exn_msg e).

(** [except Exception as e: raise RuntimeError(f"...{str(e)}")]: what leaves
    [execute_strategy] when [e] left the [try] block.  An exception outside
    [Exception] is not caught; when [str(e)] raises, that exception leaves
    the handler. *)
Definition reraise (e : exn) : exn :=
  if is_exception e then
    match str_of e with
    | Ok _ => execution_failed e
    | Raise raised => raised
    end
  else e.

Section Sandbox.
Context (exec : interpreter).

(** The body of the [try] block. *)
Definition execute_strategy_body (strategy_code : string) (price_data : Series)
    : result Series :=
  match exec strategy_code price_data with
  | ExecRaised e => Raise e
  | ExecDone None => Raise missing_signals
  | ExecDone (Some v) =>
      signals ← make_series v (index price_data);
      signals ← reindex_ffill signals (index price_data);
      Ok (clip (-1) 1 (fillna 0 signals))
  end.

Definition execute_strategy (strategy_code : string) (price_data : Series)
    : result Series :=
  match execute_strategy_body strategy_code price_data with
  | Ok signals => Ok signals
  | Raise e => Raise (reraise e)
  end.

End Sandbox.

(** ** Transaction costs and net returns *)

Definition total_cost_rate (c : Config) : Q := (bid_ask_spread c + slippage c)%Q.

Definition calculate_transaction_costs (c : Config) (positions prices : Series)
    : Series :=
  let position_changes := fillna 0 (diff positions) in
  zip_values (lift2 Qmult) (scale (total_cost_rate c) (abs position_changes)) prices.

(** The cost charged for a position change [d] (NaN counts as no change)
    at the price [p]: one row of [calculate_transaction_costs]. *)
Definition cost_of_change (c : Config) (d p : float) : float :=
  lift2 Qmult (Some (Qabs (default 0%Q d) * total_cost_rate c)%Q) p.

(** The return series of [run_backtest_period], from the positions to the
    net returns after costs. *)
Definition price_returns_of (prices : Series) : Series := fillna 0 (pct_change prices).

Definition strategy_returns_of (positions prices : Series) : Series :=
  zip_values (lift2 Qmult) (shift1 positions) (price_returns_of prices).

Definition cost_returns_of (c : Config) (positions prices : Series) : Series :=
  zip_values fdiv (neg (calculate_transaction_costs c positions prices))
    (shift1 prices).

Definition net_returns_of (c : Config) (positions prices : Series) : Series :=
  zip_values (lift2 Qplus) (strategy_returns_of positions prices)
    (fillna 0 (cost_returns_of c positions prices)).

(** ** One period of the backtest *)

Record PeriodResult : Type := mk_period_result {
  total_return : float;
  volatility : float;
  sharpe_ratio : float;
  max_drawdown : float;
  turnover : float;
  beta : float;
  num_trades : nat;
  win_rate : float;
  profit_factor : float;
  window_id : option nat
}.

Definition set_window_id (i : nat) (r : PeriodResult) : PeriodResult :=
  mk_period_result (total_return r) (volatility r) (sharpe_ratio r)
    (max_drawdown r) (turnover r) (beta r) (num_trades r) (win_rate r)
    (profit_factor r) (Some i).

(** The statistics of a period (pandas, numpy and vectorbt routines on the
    prices, the signals and the net returns); they may raise. *)
Definition statistics := Series → Series → Series → result PeriodResult.

(** The f-string of the source also prints the two dates. *)
Definition insufficient_period_data : exn :=
  mk_exn ValueError "Insufficient data for period".

Section Backtest.
Context (print : console) (exec : interpreter) (stats : statistics) (c : Config).

(** [data] is the frame's [Close] column with the frame's index. *)
Definition run_backtest_period (strategy_code : string) (data : Series)
    (start_date end_date : Timestamp) : result PeriodResult :=
  let period_data := loc_slice start_date end_date data in
  if bool_decide (length period_data < 2)%nat then Raise insufficient_period_data
  else
    let prices := period_data in
    signals ← execute_strategy exec strategy_code prices;
    let positions := signals in
    let net_returns := net_returns_of c positions prices in
    stats prices signals net_returns.

(** ** The walk-forward loop *)

Record Results : Type := mk_results {
  train_results : list PeriodResult;
  validation_results : list PeriodResult;
  test_results : list PeriodResult
}.

Definition no_results : Results := mk_results [] [] [].

Definition add_train (r : PeriodResult) (rs : Results) : Results :=
  mk_results (train_results rs ++ [r]) (validation_results rs) (test_results rs).
Definition add_validation (r : PeriodResult) (rs : Results) : Results :=
  mk_results (train_results rs) (validation_results rs ++ [r]) (test_results rs).
Definition add_test (r : PeriodResult) (rs : Results) : Results :=
  mk_results (train_results rs) (validation_results rs) (test_results rs ++ [r]).

(** The body of the [try]: each result is appended as soon as its period
    has run; the first exception leaves the body.  The results gathered so
    far come back with the outcome, as the lists are updated in place. *)
Definition run_window (strategy_code : string) (data : Series) (i : nat)
    (window : Window) (rs : Results) : Results * option exn :=
  match run_backtest_period strategy_code data (train_start window) (train_end window) with
  | Raise e => (rs, Some e)
  | Ok train_result =>
      let rs := add_train (set_window_id i train_result) rs in
      match run_backtest_period strategy_code data (val_start window) (val_end window) with
      | Raise e => (rs, Some e)
      | Ok val_result =>
          let rs := add_validation (set_window_id i val_result) rs in
          match run_backtest_period strategy_code data (test_start window) (test_end window) with
          | Raise e => (rs, Some e)
          | Ok test_result => (add_test (set_window_id i test_result) rs, None)
          end
      end
  end.

(** [f"Error in window {i}: {e}"]. *)
Definition window_error_message (i : nat) (message : string) : string :=
  "Error in window " +:+ pretty i +:+ ": " +:+ message.

(** [except Exception as e: print(...); continue].  [None]: the exception
    was caught and its message printed, the loop goes on.  Otherwise the
    exception that leaves the loop: [e] itself when it is outside
    [Exception], or what [str(e)] or [print] raised inside the handler. *)
Definition window_handler (i : nat) (e : exn) : option exn :=
  if is_exception e then
    match message ← str_of e; print (window_error_message i message) with
    | Ok _ => None
    | Raise raised => Some raised
    end
  else Some e.

(** [for i, window in enumerate(windows)]: the results gathered when the
    loop ended, and the exception that ended it, if one did. *)
Fixpoint run_windows (strategy_code : string) (data : Series) (i : nat)
    (windows : list Window) (rs : Results) : Results * option exn :=
  match windows with
  | [] => (rs, None)
  | window :: windows' =>
      let '(rs', failure) := run_window strategy_code data i window rs in
      match failure ≫= window_handler i with
      | None => run_windows strategy_code data (S i) windows' rs'
      | Some e => (rs', Some e)
      end
  end.

End Backtest.

(** ** Aggregate metrics *)

Module Numpy.

Definition fsum (xs : list float) : float := foldr (lift2 Qplus) (Some 0%Q) xs.

Definition count (xs : list float) : Q := inject_Z (Z.of_nat (length xs)).

(** [np.mean]: NaN as soon as one value is.  The sum and the quotient are
    exact here; the program rounds each of them to binary64. *)
Definition mean (xs : list float) : float :=
  lift1 (λ s, s / count xs)%Q (fsum xs).

(** [np.var] with its default [ddof=0]. *)
Definition var (xs : list float) : float :=
  mean ((λ x, lift2 (λ a m, (a - m) * (a - m))%Q x (mean xs)) <$> xs).

(** [np.std], over a square root [sqrt]. *)
Definition std (sqrt : Q → Q) (xs : list float) : float := lift1 sqrt (var xs).

(** [np.min]: NaN as soon as one value is (and on an empty list, where
    numpy raises; the aggregator never calls it there). *)
Definition amin (xs : list float) : float :=
  match xs with
  | [] => None
  | x :: xs' => foldl (lift2 Qmin) x xs'
  end.

(** [s < v] on floats: false on NaN. *)
Definition flt (x : float) (v : Q) : bool :=
  match x with
  | Some q => negb (Qle_bool v q)
  | None => false
  end.

End Numpy.

Inductive period : Set := Train | Validation | Test.

Definition period_name (p : period) : string :=
  match p with
  | Train => "train"
  | Validation => "validation"
  | Test => "test"
  end.

(** [results[f'{period}_results']]. *)
Definition period_results (rs : Results) (p : period) : list PeriodResult :=
  match p with
  | Train => train_results rs
  | Validation => validation_results rs
  | Test => test_results rs
  end.

Section Aggregate.
Context (sqrt : Q → Q).

(** The body of the loop on the periods, after the emptiness test. *)
Definition add_period_metrics (p : string) (period_results : list PeriodResult)
    (metrics : gmap string float) : gmap string float :=
  let metrics := <[p +:+ "_avg_sharpe" := Numpy.mean (sharpe_ratio <$> period_results)]> metrics in
  let metrics := <[p +:+ "_avg_return" := Numpy.mean (total_return <$> period_results)]> metrics in
  let metrics := <[p +:+ "_avg_maxdd" := Numpy.mean (max_drawdown <$> period_results)]> metrics in
  let metrics := <[p +:+ "_avg_turnover" := Numpy.mean (turnover <$> period_results)]> metrics in
  let metrics := <[p +:+ "_avg_beta" := Numpy.mean (beta <$> period_results)]> metrics in
  let sharpe_ratios := sharpe_ratio <$> period_results in
  let metrics := <[p +:+ "_sharpe_std" := Numpy.std sqrt sharpe_ratios]> metrics in
  let metrics := <[p +:+ "_min_sharpe" := Numpy.amin sharpe_ratios]> metrics in
  <[p +:+ "_unstable_windows" :=
      Some (Numpy.count (filter (λ s, Numpy.flt s (3 # 10)) sharpe_ratios))]> metrics.

(** One turn of the loop over the periods. *)
Definition aggregate_step (rs : Results) (metrics : gmap string float) (p : period)
    : gmap string float :=
  match period_results rs p with
  | [] => metrics
  | _ => add_period_metrics (period_name p) (period_results rs p) metrics
  end.

Definition calculate_aggregate_metrics (rs : Results) : gmap string float :=
  foldl (aggregate_step rs) ∅ [Train; Validation; Test].

End Aggregate.

(** The endings of the keys written for a period. *)
Definition period_suffixes : list string :=
  ["_avg_sharpe"; "_avg_return"; "_avg_maxdd"; "_avg_turnover"; "_avg_beta";
   "_sharpe_std"; "_min_sharpe"; "_unstable_windows"].

(** ** [run_walk_forward_backtest] *)

Record BacktestReport : Type := mk_report {
  report_results : Results;
  report_windows : list Window;
  report_aggregate : gmap string float
}.

Definition insufficient_data : exn :=
  mk_exn ValueError "Insufficient data for walk-forward backtesting".

Section WalkForward.
Context (print : console) (exec : interpreter) (stats : statistics).
Context (sqrt : Q → Q) (c : Config).

(** The part of the function after the windows are known. *)
Definition backtest_windows (strategy_code : string) (data : Series)
    (windows : list Window) : result BacktestReport :=
  match windows with
  | [] => Raise insufficient_data
  | _ =>
      match run_windows print exec stats c strategy_code data 0 windows no_results with
      | (results, None) =>
          Ok (mk_report results windows (calculate_aggregate_metrics sqrt results))
      | (_, Some e) => Raise e
      end
  end.

(** [None]: the window loop did not end within [fuel] iterations. *)
Definition run_walk_forward_backtest (fuel : nat) (strategy_code : string)
    (data : Series) : option (result BacktestReport) :=
  match generate_walk_forward_windows fuel c (index data) with
  | None => None
  | Some (Raise e) => Some (Raise e)
  | Some (Ok windows) => Some (backtest_windows strategy_code data windows)
  end.

End WalkForward.

(** ** Sample strategies and price series *)

(** Rows at the odd positions: [s.iloc[1::2]]. *)
Fixpoint odd_rows (s : Series) : Series :=
  match s with
  | _ :: r :: s' => r :: odd_rows s'
  | _ => []
  end.

(** What the Python interpreter does on a few strategy texts; a text
    outside the list is not interpreted. *)
Definition sample_exec : interpreter := λ strategy_code price,
  if decide (strategy_code = "signals = 1.0") then
    ExecDone (Some (PyScalar (Some 1%Q)))
  else if decide (strategy_code = "price_mean = price.mean()") then
    ExecDone None
  else if decide (strategy_code = "signals = price.iloc[1::2] - 101") then
    ExecDone (Some (PySeries (map_values (lift1 (λ p, p - 101)%Q) (odd_rows price))))
  else if decide (strategy_code = "signals = price.mean(") then
    ExecRaised (mk_exn SyntaxError "'(' was never closed (<string>, line 1)")
  else if decide (strategy_code = "raise SystemExit('stop')") then
    ExecRaised (mk_exn SystemExit "stop")
  else ExecRaised (mk_exn OtherError "strategy text outside the samples").

(** A console that takes every text. *)
Definition sample_console : console := λ _, Ok ().

(** Closes 100, 101, ... on consecutive days from 1 January 2020. *)
Definition rising_closes (index : list Timestamp) : Series :=
  imap (λ k t, (t, Some (inject_Z (100 + Z.of_nat k)))) index.

Definition five_prices : Series := rising_closes (take 5 daily_index).
Definition daily_prices : Series := rising_closes daily_index.
Definition monthly_prices : Series := rising_closes monthly_index.

(** Flat, long, long, flat, short on the five sample days. *)
Definition five_positions : Series :=
  zip (take 5 daily_index) [Some 0%Q; Some 1%Q; Some 1%Q; Some 0%Q; Some (-1)%Q].

(** *** What a window leaves in the three result lists *)

Section Contribution.
Context (run : Timestamp → Timestamp → result PeriodResult).

Definition tagged (i : nat) (r : result PeriodResult) : list PeriodResult :=
  match r with
  | Ok x => [set_window_id i x]
  | Raise _ => []
  end.

Definition train_run (w : Window) := run (train_start w) (train_end w).
Definition validation_run (w : Window) := run (val_start w) (val_end w).
Definition test_run (w : Window) := run (test_start w) (test_end w).

(** The train result is kept when the train period ran; the validation
    result when both the train and the validation period ran; the test
    result when all three did. *)
Definition kept_train (i : nat) (w : Window) : list PeriodResult :=
  tagged i (train_run w).
Definition kept_validation (i : nat) (w : Window) : list PeriodResult :=
  if is_ok (train_run w) then tagged i (validation_run w) else [].
Definition kept_test (i : nat) (w : Window) : list PeriodResult :=
  if is_ok (train_run w) && is_ok (validation_run w)
  then tagged i (test_run w) else [].

(** The result lists [rs] after the windows [ws], numbered from [i], have
    left in them what they keep. *)
Definition gathered (i : nat) (ws : list Window) (rs : Results) : Results :=
  mk_results
    (train_results rs ++ concat (imap (λ k, kept_train (i + k)) ws))
    (validation_results rs ++ concat (imap (λ k, kept_validation (i + k)) ws))
    (test_results rs ++ concat (imap (λ k, kept_test (i + k)) ws)).

(** The exception of the first period of the window that raises. *)
Definition failure (w : Window) : option exn :=
  match train_run w with
  | Raise e => Some e
  | Ok _ =>
      match validation_run w with
      | Raise e => Some e
      | Ok _ =>
          match test_run w with
          | Raise e => Some e
          | Ok _ => None
          end
      end
  end.

End Contribution.

(** *** Sample statistics, square root and results *)

(** A statistics routine that succeeds on every period; the figures it
    reports play no part in the examples. *)
Definition flat_result : PeriodResult :=
  mk_period_result (Some 0%Q) (Some 0%Q) (Some 0%Q) (Some 0%Q) (Some 0%Q)
    (Some 0%Q) 0 (Some 0%Q) (Some 0%Q) None.
Definition sample_stats : statistics := λ _ _ _, Ok flat_result.

(** A square root on the rationals: exact on the squares, rounded down
    elsewhere. *)
Definition sample_sqrt (q : Q) : Q :=
  Z.sqrt (Qnum q * Z.pos (Qden q)) # Qden q.

(** Two test windows with Sharpe 1/10 and 1/2 and volatilities 4 and 6. *)
Definition sample_results : Results :=
  mk_results [] []
    [mk_period_result (Some 0%Q) (Some 4%Q) (Some (1 # 10)) (Some 0%Q) (Some 0%Q)
       (Some 0%Q) 0 (Some 0%Q) (Some 0%Q) (Some O);
     mk_period_result (Some 0%Q) (Some 6%Q) (Some (1 # 2)) (Some 0%Q) (Some 0%Q)
       (Some 0%Q) 0 (Some 0%Q) (Some 0%Q) (Some 1%nat)].

(** ** Regular expressions, as [guard_rail.py] uses them *)

Module Re.

(** The patterns of the guard rail use literal characters, character
    classes, sequencing, alternation, the greedy [*] and [+], and at most
    one group.  They are matched against texts whose characters are code
    points below 256; the letters and the blanks are those of Unicode in
    that range. *)
Inductive regex : Type :=
| Eps
| Chr (c : ascii)
| Cls (member : ascii → bool)
| Cat (r1 r2 : regex)
| Alt (r1 r2 : regex)
| Star (r : regex)
| Plus (r : regex)
| Grp (r : regex).

(** [re.IGNORECASE] on a literal: the two letters agree up to case.  The
    capital letters below 256 are A to Z and 192 to 222 without the
    multiplication sign 215; each has its small letter 32 places above. *)
Definition to_lower (c : ascii) : ascii :=
  let n := N_of_ascii c in
  if ((65 <=? n) && (n <=? 90)
      || (192 <=? n) && (n <=? 222) && negb (n =? 215))%N
  then ascii_of_N (n + 32) else c.

Definition eq_ci (c c' : ascii) : bool :=
  bool_decide (to_lower c = to_lower c').

(** A way to match a prefix: what is left of the text, and the text of the
    group when the group took part. *)
Definition outcome : Type := list ascii * option (list ascii).

Definition later_group (g1 g2 : option (list ascii)) : option (list ascii) :=
  match g2 with Some _ => g2 | None => g1 end.

(** Greedy repetition of [step]: one more round first, as long as the round
    eats a character, then the way out. *)
Fixpoint star (step : list ascii → list outcome) (fuel : nat) (s : list ascii)
    : list outcome :=
  match fuel with
  | O => [(s, None)]
  | S fuel' =>
      (o1 ← step s;
       if bool_decide (length o1.1 < length s)%nat
       then (λ o2, (o2.1, later_group o1.2 o2.2)) <$> star step fuel' o1.1
       else [])
      ++ [(s, None)]
  end.

(** All the ways [r] matches a prefix of [s], in the order the backtracking
    matcher of Python tries them. *)
Fixpoint run (r : regex) (s : list ascii) : list outcome :=
  match r with
  | Eps => [(s, None)]
  | Chr c =>
      match s with
      | c' :: s' => if eq_ci c c' then [(s', None)] else []
      | [] => []
      end
  | Cls member =>
      match s with
      | c' :: s' => if member c' then [(s', None)] else []
      | [] => []
      end
  | Cat r1 r2 =>
      o1 ← run r1 s;
      (λ o2, (o2.1, later_group o1.2 o2.2)) <$> run r2 o1.1
  | Alt r1 r2 => run r1 s ++ run r2 s
  | Star r => star (run r) (length s) s
  | Plus r =>
      o1 ← run r s;
      (λ o2, (o2.1, later_group o1.2 o2.2)) <$> star (run r) (length o1.1) o1.1
  | Grp r =>
      (λ o, (o.1, Some (take (length s - length o.1) s))) <$> run r s
  end.

(** [re.search(r, s)] as a truth value: is there a match at some position. *)
Fixpoint search_from (r : regex) (s : list ascii) : bool :=
  match run r s with
  | _ :: _ => true
  | [] =>
      match s with
      | [] => false
      | _ :: s' => search_from r s'
      end
  end.

Definition search (r : regex) (text : string) : bool :=
  search_from r (list_ascii_of_string text).

(** [re.findall(r, s)] for a pattern with one group: the text of the group
    in each match, the matches taken from left to right without overlap.
    [skip] counts the characters of the last match still to pass. *)
Fixpoint findall_from (r : regex) (skip : nat) (s : list ascii) : list string :=
  match skip, s with
  | S skip', _ :: s' => findall_from r skip' s'
  | S _, [] => []
  | O, _ =>
      match run r s with
      | (rest, g) :: _ =>
          string_of_list_ascii (default [] g) ::
          match s with
          | [] => []
          | _ :: s' => findall_from r (length s - length rest - 1) s'
          end
      | [] =>
          match s with
          | [] => []
          | _ :: s' => findall_from r 0 s'
          end
      end
  end.

Definition findall (r : regex) (text : string) : list string :=
  findall_from r 0 (list_ascii_of_string text).

(** *** Building patterns *)

Fixpoint literal_chars (cs : list ascii) : regex :=
  match cs with
  | [] => Eps
  | c :: cs' => Cat (Chr c) (literal_chars cs')
  end.

(** The pattern that matches the text [s] itself. *)
Definition literal (s : string) : regex := literal_chars (list_ascii_of_string s).

(** A pattern text without its backslashes: what a pattern made of plain
    characters and of escaped punctuation matches. *)
Fixpoint unescape (s : string) : string :=
  match s with
  | String "\" (String c s') => String c (unescape s')
  | String c s' => String c (unescape s')
  | EmptyString => EmptyString
  end.

Definition one_of (s : string) : regex :=
  Cls (λ c, bool_decide (c ∈ list_ascii_of_string s)).
Definition between (lo hi : ascii) : ascii → bool :=
  λ c, ((N_of_ascii lo <=? N_of_ascii c) && (N_of_ascii c <=? N_of_ascii hi))%N.

(** [\s] on a text: the blank, the controls 9 to 13 and 28 to 31, the next
    line control 133 and the no-break space 160. *)
Definition blanks : list N := [32; 9; 10; 11; 12; 13; 28; 29; 30; 31; 133; 160]%N.
Definition space : regex := Cls (λ c, bool_decide (N_of_ascii c ∈ blanks)).
(** [[0-9.]]. *)
Definition digit_or_dot : regex :=
  Cls (λ c, between "0" "9" c || bool_decide (c = "."%char)).

End Re.

(** ** The guard rail *)

(** The nodes of a Python syntax tree the two visitors look at; every other
    node is a [Node] holding its child nodes in field order, which is all
    [generic_visit] uses.  A [Constant] carries [str(value)]. *)
Inductive ast : Type :=
| Import (names : list string)
| ImportFrom (module : option string) (names : list string)
| Call (func : ast) (args : list ast) (keywords : list ast)
| Attribute (value : ast) (attr : string)
| Name (id : string)
| Constant (text : string)
| Node (children : list ast).

(** [ast.parse]: a tree, or the exception it raised: a [SyntaxError] on a
    text that is no Python, and also a [ValueError] on a text with a null
    character or an encoding error on a lone surrogate. *)
Inductive parse_outcome : Type :=
| Parsed (tree : ast)
| ParseRaised (e : exn).

Definition parser := string → parse_outcome.

(** A binary64 number that is not NaN: what [float] returns on a text of
    digits and a dot. *)
Inductive double : Type :=
| Finite (q : Q)
| Infinity.
Arguments Finite q%_Q.

(** One constructor for each message the checks produce:
    - [SyntaxViolation msg]: [Syntax error: {msg}]
    - [BannedPattern p]: [Banned pattern detected: {p}]
    - [BannedImport n]: [Banned import: {n}]
    - [BannedImportFrom m]: [Banned import from: {m}]
    - [BannedFunctionCall f]: [Banned function call: {f}]
    - [BannedMethodCall a]: [Banned method call: {a}]
    - [BannedModuleAccess m a]: [Banned module access: {m}.{a}]
    - [ForwardLooking p]: [Potential forward-looking operation: {p}]
    - [LeverageExceeds v]: [Leverage {v}x exceeds maximum 2.0x]
    - [PositionSizeExceeds v]: [Position size {v*100}% exceeds maximum 5.0%]
    - [FileOutsideTmp path]: [File operation outside /tmp: {path}]
    - [NetworkOperation p]: [Network operation detected: {p}] *)
Inductive violation : Type :=
| SyntaxViolation (msg : string)
| BannedPattern (pattern : string)
| BannedImport (name : string)
| BannedImportFrom (module : string)
| BannedFunctionCall (id : string)
| BannedMethodCall (attr : string)
| BannedModuleAccess (id attr : string)
| ForwardLooking (pattern : string)
| LeverageExceeds (value : double)
| PositionSizeExceeds (value : double)
| FileOutsideTmp (path : string)
| NetworkOperation (pattern : string).

Record Verdict : Type := mk_verdict { passed : bool; errors : list violation }.

Module GuardRail.
Import Re.

Definition allowed_libraries : list string :=
  ["pandas"; "numpy"; "vectorbt"; "math"; "datetime"].

Definition banned_patterns : list string :=
  ["\.now\(\)"; "time\.time\(\)"; "\.today\(\)"; "requests\."; "urllib\.";
   "http"; "socket\."; "open\("; "file\("; "input\("; "eval\("; "exec\("].

(** *** Rounding to binary64 *)

Definition pow2 (e : Z) : Q :=
  if 0 <=? e then inject_Z (2 ^ e) else (1 / inject_Z (2 ^ (- e)))%Q.

(** For a positive [q], the [e] with [2^e ≤ q < 2^(e+1)]. *)
Definition floor_log2 (q : Q) : Z :=
  let k := Z.log2 (Qnum q) - Z.log2 (Z.pos (Qden q)) in
  if Qle_bool (pow2 k) q then k else k - 1.

(** The whole number nearest to [q], the even one of two at equal
    distance. *)
Definition round_half_even (q : Q) : Z :=
  let d := Z.pos (Qden q) in
  let f := Qnum q / d in
  let twice := 2 * (Qnum q - f * d) in
  if twice <? d then f
  else if d <? twice then f + 1
  else if Z.even f then f else f + 1.

(** The binary64 number nearest to a rational that is not negative: 53
    bits from the leading one, or steps of [2^-1074] below [2^-1022];
    infinity from [2^1024] on. *)
Definition to_double (q : Q) : double :=
  if Qle_bool q 0 then Finite 0
  else
    let ulp := pow2 (Z.max (floor_log2 q - 52) (-1074)) in
    let r := (inject_Z (round_half_even (q / ulp)) * ulp)%Q in
    if Qle_bool (pow2 1024) r then Infinity else Finite (Qred r).

(** [a > b] on such numbers. *)
Definition double_gt (a b : double) : bool :=
  match a, b with
  | Finite x, Finite y => negb (Qle_bool x y)
  | Infinity, Finite _ => true
  | _, Infinity => false
  end.

(** The floats written [2.0] and [0.05] in [__init__]. *)
Definition max_leverage : double := to_double 2.
Definition max_position_pct : double := to_double (5 # 100).

(** A pattern of plain and escaped characters, compiled. *)
Definition compile_plain (pattern : string) : regex := literal (unescape pattern).

Definition check_banned_patterns (code : string) : list violation :=
  BannedPattern <$> filter (λ pattern, search (compile_plain pattern) code) banned_patterns.

(** *** [_check_ast] *)

Definition is_prefix_of (p s : string) : bool := bool_decide (String.prefix p s = true).

(** The violation of a node itself, before its children are visited. *)
Definition dangerous_here (node : ast) : list violation :=
  match node with
  | Import names =>
      BannedImport <$> filter (λ name, name ∉ allowed_libraries) names
  | ImportFrom (Some module) _ =>
      if bool_decide (module ≠ "" ∧ module ∉ allowed_libraries) then
        if existsb (λ mod_, is_prefix_of mod_ module) allowed_libraries then []
        else [BannedImportFrom module]
      else []
  | Call (Name id) _ _ =>
      if bool_decide (id ∈ ["eval"; "exec"; "input"; "__import__"])
      then [BannedFunctionCall id] else []
  | Call (Attribute _ attr) _ _ =>
      if bool_decide (attr ∈ ["now"; "today"]) then [BannedMethodCall attr] else []
  | Attribute (Name id) attr =>
      if bool_decide (id = "os" ∨ id = "sys") then [BannedModuleAccess id attr] else []
  | _ => []
  end.

(** The child nodes [generic_visit] goes through. *)
Definition children_of (node : ast) : list ast :=
  match node with
  | Call func args keywords => func :: args ++ keywords
  | Attribute value _ => [value]
  | Node children => children
  | _ => []
  end.

(** A visitor whose methods all end in [generic_visit]: the violations of
    the nodes, in the order of a depth-first walk, as the visitor holds them
    when the walk reaches its end (see [walk] for the walk that does
    not). *)
Fixpoint visit (here : ast → list violation) (node : ast) : list violation :=
  here node ++
  match node with
  | Call func args keywords =>
      visit here func ++ ((fix go l := match l with
                                       | [] => []
                                       | n :: l' => visit here n ++ go l'
                                       end) args)
      ++ ((fix go l := match l with
                       | [] => []
                       | n :: l' => visit here n ++ go l'
                       end) keywords)
  | Attribute value _ => visit here value
  | Node children =>
      (fix go l := match l with
                   | [] => []
                   | n :: l' => visit here n ++ go l'
                   end) children
  | _ => []
  end.

(** The deepest nesting of Python frames under [visitor.visit(node)]: one
    frame for [visit], one for the [visit_] method when the visitor has one
    for the class of the node, one for [generic_visit], then the frames of
    the deepest child.  The child nodes the embedding leaves out are counted
    where they stand, two frames each: the [alias] nodes of an import and
    the [ctx] marker of a name (that of an attribute lies no deeper than its
    value). *)
Fixpoint frames (handled : ast → bool) (node : ast) : nat :=
  ((if handled node then 3 else 2) +
   match node with
   | Import names | ImportFrom _ names =>
       match names with [] => 0 | _ => 2 end
   | Call func args keywords =>
       Nat.max (frames handled func)
         (Nat.max ((fix go l := match l with
                                | [] => 0
                                | n :: l' => Nat.max (frames handled n) (go l')
                                end) args)
                  ((fix go l := match l with
                                | [] => 0
                                | n :: l' => Nat.max (frames handled n) (go l')
                                end) keywords))
   | Attribute value _ => frames handled value
   | Name _ => 2
   | Constant _ => 0
   | Node children =>
       (fix go l := match l with
                    | [] => 0
                    | n :: l' => Nat.max (frames handled n) (go l')
                    end) children
   end)%nat.

Definition recursion_error : exn :=
  mk_exn RecursionError "maximum recursion depth exceeded".

(** [visitor.visit(tree)] and the reading of [visitor.violations], with
    [stack] frames left under the recursion limit of the interpreter: a
    tree that nests deeper makes the walk raise [RecursionError], and the
    violations gathered so far are lost with the visitor. *)
Definition walk (stack : nat) (handled : ast → bool) (here : ast → list violation)
    (tree : ast) : result (list violation) :=
  if bool_decide (frames handled tree ≤ stack)%nat then Ok (visit here tree)
  else Raise recursion_error.

(** The classes [DangerousVisitor] has a method for. *)
Definition dangerous_handled (node : ast) : bool :=
  match node with
  | Import _ | ImportFrom _ _ | Call _ _ _ | Attribute _ _ => true
  | _ => false
  end.

Definition check_ast (stack : nat) (tree : ast) : result (list violation) :=
  walk stack dangerous_handled dangerous_here tree.

(** *** [_check_forward_looking] *)

Definition forward_patterns : list (string * regex) :=
  [("\.shift\(\s*-", Cat (literal ".shift(") (Cat (Star space) (Chr "-")));
   ("future", literal "future");
   ("tomorrow", literal "tomorrow");
   ("next_", literal "next_");
   ("lead\(", literal "lead(")].

Definition check_forward_looking (code : string) : list violation :=
  (λ p, ForwardLooking p.1) <$> filter (λ p, search p.2 code) forward_patterns.

(** *** [_check_position_sizing] *)

(** [name\s*[...]\s*([0-9.]+)]. *)
Definition assigned_number (name separators : string) : regex :=
  Cat (literal name)
    (Cat (Star space) (Cat (one_of separators) (Cat (Star space)
       (Grp (Plus digit_or_dot))))).

Definition leverage_patterns : list regex :=
  [assigned_number "leverage" "=:";
   assigned_number "margin" "=:";
   (* \*\s*([3-9]|[1-9][0-9]+) *)
   Cat (Chr "*") (Cat (Star space)
     (Grp (Alt (Cls (between "3" "9"))
               (Cat (Cls (between "1" "9")) (Plus (Cls (between "0" "9")))))))].

Definition position_patterns : list regex :=
  [assigned_number "position" ">>="; assigned_number "size" ">>="].

Definition is_digit (c : ascii) : bool := between "0" "9" c.
Definition digit_value (c : ascii) : Z := Z.of_N (N_of_ascii c) - 48.

Definition digits_value (cs : list ascii) : Z :=
  foldl (λ acc c, 10 * acc + digit_value c) 0 cs.

(** [m.replace('.', '').isdigit()] on a text of digits and dots. *)
Definition digits_without_dots (m : string) : bool :=
  let cs := filter (λ c, c ≠ "."%char) (list_ascii_of_string m) in
  negb (bool_decide (cs = [])) && forallb is_digit cs.

Definition bad_float (m : string) : exn :=
  mk_exn ValueError ("could not convert string to float: '" +:+ m +:+ "'").

Fixpoint before_dot (cs : list ascii) : list ascii :=
  match cs with
  | [] => []
  | c :: cs' => if bool_decide (c = "."%char) then [] else c :: before_dot cs'
  end.

(** The number a text of digits with at most one dot writes. *)
Definition decimal_value (cs : list ascii) : Q :=
  let whole := before_dot cs in
  let frac := drop (S (length whole)) cs in
  (inject_Z (digits_value (whole ++ frac)) / inject_Z (10 ^ Z.of_nat (length frac)))%Q.

(** [float(m)] on a text of digits and dots with a digit: the binary64
    number nearest to the number it writes when it has at most one dot, a
    [ValueError] otherwise. *)
Definition parse_float (m : string) : result double :=
  let cs := list_ascii_of_string m in
  let dots := length (filter (λ c, c = "."%char) cs) in
  if bool_decide (1 < dots)%nat then Raise (bad_float m)
  else Ok (to_double (decimal_value cs)).

Definition exceeds (value bound : double) : bool := double_gt value bound.

(** The two nested loops over the patterns and their matches. *)
Fixpoint check_matches (mk : double → violation) (bound : double) (matches : list string)
    : result (list violation) :=
  match matches with
  | [] => Ok []
  | m :: matches' =>
      if digits_without_dots m then
        value ← parse_float m;
        rest ← check_matches mk bound matches';
        Ok (if exceeds value bound then mk value :: rest else rest)
      else check_matches mk bound matches'
  end.

Fixpoint check_patterns (mk : double → violation) (bound : double) (patterns : list regex)
    (code : string) : result (list violation) :=
  match patterns with
  | [] => Ok []
  | pattern :: patterns' =>
      here ← check_matches mk bound (findall pattern code);
      rest ← check_patterns mk bound patterns' code;
      Ok (here ++ rest)
  end.

Definition check_position_sizing (code : string) : result (list violation) :=
  leverage ← check_patterns LeverageExceeds max_leverage leverage_patterns code;
  position ← check_patterns PositionSizeExceeds max_position_pct position_patterns code;
  Ok (leverage ++ position).

(** *** [_check_file_operations] *)

Definition file_here (node : ast) : list violation :=
  match node with
  | Call (Name id) (Constant path :: _) _ =>
      if bool_decide (id ∈ ["open"; "file"]) && negb (is_prefix_of "/tmp" path)
      then [FileOutsideTmp path] else []
  | _ => []
  end.

(** The class [FileVisitor] has a method for. *)
Definition file_handled (node : ast) : bool :=
  match node with
  | Call _ _ _ => true
  | _ => false
  end.

Definition check_file_operations (stack : nat) (tree : ast) : result (list violation) :=
  walk stack file_handled file_here tree.

(** *** [_check_network_operations] *)

Definition network_patterns : list string :=
  ["requests\."; "urllib\."; "aiohttp\."; "socket\."; "http\."; "ftp\."; "smtp\.";
   "\.get\("; "\.post\("; "\.put\("; "\.delete\("; "\.download"; "\.fetch"].

Definition check_network_operations (code : string) : list violation :=
  NetworkOperation <$> filter (λ pattern, search (compile_plain pattern) code) network_patterns.

(** *** [check_strategy] *)

Section CheckStrategy.
Context (parse : parser).

(** [data] only matters for being given or not.  [stack] is the number of
    frames left under the recursion limit when one of the two visitors
    starts its walk; both start at the same depth. *)
Definition check_strategy (stack : nat) (strategy_code : string) (data : option Series)
    : result Verdict :=
  match parse strategy_code with
  | ParseRaised e =>
      if bool_decide (exn_kind e = SyntaxError) then
        message ← str_of e;
        Ok (mk_verdict false [SyntaxViolation message])
      else Raise e
  | Parsed tree =>
      let violations := check_banned_patterns strategy_code in
      from_tree ← check_ast stack tree;
      let violations := violations ++ from_tree in
      let violations := violations ++ check_forward_looking strategy_code in
      sizing ← match data with
               | Some _ => check_position_sizing strategy_code
               | None => Ok []
               end;
      let violations := violations ++ sizing in
      from_files ← check_file_operations stack tree;
      let violations := violations ++ from_files in
      let violations := violations ++ check_network_operations strategy_code in
      Ok (mk_verdict (bool_decide (length violations = 0%nat)) violations)
  end.

End CheckStrategy.

End GuardRail.

Export GuardRail.

(** [text] holds [needle] somewhere, up to the case of the letters. *)
Definition contains_ci (needle text : string) : Prop :=
  ∃ pre w post,
    list_ascii_of_string text = pre ++ w ++ post ∧
    Re.to_lower <$> w = Re.to_lower <$> list_ascii_of_string needle.

(** *** Sample submissions *)

(** [x = 1] followed by the character of code 0. *)
Definition null_text : string := "x = 1" +:+ String "000" "".

(** What [ast.parse] returns on a few strategy texts (markers such as
    [Load] and [Store], which no visitor looks at, are left out of the
    trees); a text outside the list is not parsed. *)
Definition sample_parse : parser := λ strategy_code,
  if decide (strategy_code = "leverage = 5") then
    Parsed (Node [Node [Name "leverage"; Constant "5"]])
  else if decide (strategy_code = "x = 1  # http, leverage = 1.2.3") then
    Parsed (Node [Node [Name "x"; Constant "1"]])
  else if decide (strategy_code = "r = cfg.get('k')") then
    Parsed (Node [Node [Name "r";
                        Call (Attribute (Name "cfg") "get") [Constant "k"] []]])
  else if decide (strategy_code = "import os") then
    Parsed (Node [Import ["os"]])
  else if decide (strategy_code = "signals = price.shift(") then
    ParseRaised (mk_exn SyntaxError "'(' was never closed (<unknown>, line 1)")
  else if decide (strategy_code = null_text) then
    ParseRaised (mk_exn ValueError "source code string cannot contain null bytes")
  else ParseRaised (mk_exn SyntaxError "strategy text outside the samples").

(** ** Further definitions *)

(** A value is a number between -1 and 1. *)
Definition in_unit_range (x : float) : Prop :=
  ∃ q, x = Some q ∧ (-1 <= q <= 1)%Q.

(** The window ids of a list of results. *)
Definition window_ids (rs : list PeriodResult) : list (option nat) :=
  window_id <$> rs.

(** [f] gives, for the window at place [i], at most one result, tagged with
    the window number [n + i]. *)
Definition tags_from (n : nat) (f : nat → Window → list PeriodResult) : Prop :=
  ∀ i w, f i w = [] ∨ ∃ r, f i w = [r] ∧ window_id r = Some (n + i)%nat.

(** ** The analyzer's summary ([analyzer.py], [get_performance_summary]) *)

Record PerformanceSummary : Type := mk_summary {
  test_sharpe : float;
  test_return : float;
  test_maxdd : float;
  test_turnover : float;
  test_beta : float;
  stability_score : float;
  num_test_windows : nat
}.

(** [metrics.get(key, 0)]. *)
Definition metrics_get (metrics : gmap string float) (key : string) : float :=
  default (Some 0%Q) (metrics !! key).

Definition get_performance_summary (results : BacktestReport) : PerformanceSummary :=
  let metrics := report_aggregate results in
  let tests := test_results (report_results results) in
  {| test_sharpe := metrics_get metrics "test_avg_sharpe";
     test_return := metrics_get metrics "test_avg_return";
     test_maxdd := metrics_get metrics "test_avg_maxdd";
     test_turnover := metrics_get metrics "test_avg_turnover";
     test_beta := metrics_get metrics "test_avg_beta";
     stability_score :=
       lift2 Qminus (Some (inject_Z (Z.of_nat (length tests))))
         (metrics_get metrics "test_unstable_windows");
     num_test_windows := length tests |}.

(** The report [run_walk_forward_backtest] builds from gathered results. *)
Definition report_of (sqrt : Q → Q) (rs : Results) (windows : list Window)
    : BacktestReport :=
  mk_report rs windows (calculate_aggregate_metrics sqrt rs).

(** The sum of a list of rationals. *)
Definition qsum (qs : list Q) : Q := foldr Qplus 0%Q qs.

(** How many of the numbers are below [v], and how many are not. *)
Definition count_below (v : Q) (qs : list Q) : nat :=
  length (filter (λ x, Numpy.flt (Some x) v) qs).
Definition count_not_below (v : Q) (qs : list Q) : nat :=
  length (filter (λ x, negb (Numpy.flt (Some x) v)) qs).

(** ** Further definitions for the guard rail *)


(** All the nodes of a tree, in the order of the walk. *)
Fixpoint subnodes (node : ast) : list ast :=
  node ::
  match node with
  | Call func args keywords =>
      subnodes func ++ ((fix go l := match l with
                                     | [] => []
                                     | n :: l' => subnodes n ++ go l'
                                     end) args)
      ++ ((fix go l := match l with
                       | [] => []
                       | n :: l' => subnodes n ++ go l'
                       end) keywords)
  | Attribute value _ => subnodes value
  | Node children =>
      (fix go l := match l with
                   | [] => []
                   | n :: l' => subnodes n ++ go l'
                   end) children
  | _ => []
  end.

(** The number of dots of a text. *)
Definition dots (m : string) : nat :=
  length (filter (λ c, c = "."%char) (list_ascii_of_string m)).

(** ** Validating signals ([guard_rail.py], [validate_signals]) *)

(** The numbers of a column: the reductions of pandas skip NaN. *)
Definition numbers (xs : list float) : list Q := omap id xs.

(** [s.min()], [s.max()] and [s.mean()]: NaN when the series holds no
    number. *)
Definition series_min (s : Series) : float :=
  match numbers (values s) with
  | [] => None
  | q :: qs => Some (foldl Qmin q qs)
  end.
Definition series_max (s : Series) : float :=
  match numbers (values s) with
  | [] => None
  | q :: qs => Some (foldl Qmax q qs)
  end.
Definition series_mean (s : Series) : float :=
  match numbers (values s) with
  | [] => None
  | qs => Some (qsum qs / inject_Z (Z.of_nat (length qs)))%Q
  end.

(** [x > v] on floats: false on NaN. *)
Definition fgt (x : float) (v : Q) : bool :=
  match x with
  | Some q => negb (Qle_bool q v)
  | None => false
  end.

Inductive signal_violation : Type :=
| SignalsOutsideRange (lowest highest : float)
| ExcessiveTurnover (avg_turnover : float)
| PositionExceedsADV.

(** [volume_check] is the outcome of the comparison of the positions with
    the 20-day average volume: [None] when the data has no [Volume] column,
    [Some b] for [max_volume_pct.max() > self.max_position_pct] otherwise. *)
Definition validate_signals (signals : Series) (volume_check : option bool)
    : list signal_violation :=
  let range :=
    if Numpy.flt (series_min signals) (-1) || fgt (series_max signals) 1
    then [SignalsOutsideRange (series_min signals) (series_max signals)]
    else [] in
  let position_changes := Pandas.abs (Pandas.diff signals) in
  let avg_turnover := series_mean position_changes in
  let turnover :=
    if fgt avg_turnover (1 # 2) then [ExcessiveTurnover avg_turnover] else [] in
  let volume :=
    if default false volume_check then [PositionExceedsADV] else [] in
  range ++ turnover ++ volume.

(** ** The pipeline ([pipeline_runner.py]) *)

(** The dict [check_strategy] returns: its keys are [passed] and [errors]. *)
Inductive verdict_value : Type :=
| VBool (b : bool)
| VErrors (l : list violation).

Definition verdict_dict (v : Verdict) : gmap string verdict_value :=
  <["passed" := VBool (passed v)]> (<["errors" := VErrors (errors v)]> ∅).

(** [d[key]]: a [KeyError] when the key is missing. *)
Definition key_error (key : string) : exn :=
  mk_exn OtherError ("KeyError: '" +:+ key +:+ "'").
Definition getitem {A} (d : gmap string A) (key : string) : result A :=
  match d !! key with
  | Some x => Ok x
  | None => Raise (key_error key)
  end.

(** [run_single_iteration].  [planned] is the outcome of all that comes
    before the guard rail: the prints, the reading of the database and the
    planner, giving the strategy text and its motivation.  [rest] is all
    that follows the reading of [guard_result['status']]: the storing of a
    failed strategy, the backtest, the analysis and the storage, ending in
    [True] or [False].  [report_failure] stands for the two [print] calls of
    the [except Exception] clause around the whole body, on the exception
    caught: its message and the traceback. *)
Section Pipeline.
Context (parse : parser) (stack : nat) (data : Series).
Context (report_failure : exn → result unit).

Definition iteration_body (planned : result (string * string))
    (rest : string → string → verdict_value → result bool) : result bool :=
  new ← planned;
  guard_result ← check_strategy parse stack new.1 (Some data);
  status ← getitem (verdict_dict guard_result) "status";
  rest new.1 new.2 status.

Definition run_single_iteration (planned : result (string * string))
    (rest : string → string → verdict_value → result bool) : result bool :=
  match iteration_body planned rest with
  | Ok outcome => Ok outcome
  | Raise e =>
      if is_exception e then _ ← report_failure e; Ok false
      else Raise e
  end.

Record PipelineSummary : Type := mk_pipeline_summary {
  total_iterations : Z;
  successful_iterations : nat;
  failed_iterations : nat;
  success_rate : Q
}.

(** What [run_pipeline] prints: the line before an iteration, the line
    after it, and the lines of the summary. *)
Inductive pipeline_line : Type :=
| StartingIteration (number : nat) (max_iterations : Z)
| IterationDone (number : nat) (success : bool)
| SummaryLines (summary : PipelineSummary).

Context (say : pipeline_line → result unit).

Definition zero_division : exn := mk_exn OtherError "ZeroDivisionError: division by zero".

(** [for i in range(max_iterations)], from the iteration [i] on, with
    [todo] iterations to go: the two counts when the loop ends. *)
Fixpoint run_iterations
    (iteration : nat → result (string * string)
                       * (string → string → verdict_value → result bool))
    (max_iterations : Z) (todo i successful failed : nat) : result (nat * nat) :=
  match todo with
  | O => Ok (successful, failed)
  | S todo' =>
      _ ← say (StartingIteration (S i) max_iterations);
      success ← run_single_iteration (iteration i).1 (iteration i).2;
      _ ← say (IterationDone (S i) success);
      if success : bool
      then run_iterations iteration max_iterations todo' (S i) (S successful) failed
      else run_iterations iteration max_iterations todo' (S i) successful (S failed)
  end.

Definition run_pipeline
    (iteration : nat → result (string * string)
                       * (string → string → verdict_value → result bool))
    (max_iterations : Z) : result PipelineSummary :=
  counts ← run_iterations iteration max_iterations (Z.to_nat max_iterations) 0 0 0;
  summary ←
    (if bool_decide (max_iterations = 0) then Raise zero_division
     else Ok (mk_pipeline_summary max_iterations counts.1 counts.2
                (inject_Z (Z.of_nat counts.1) / inject_Z max_iterations * 100)));
  _ ← say (SummaryLines summary);
  Ok summary.

End Pipeline.

(** A text of ASCII characters. *)
Definition ascii_text (s : string) : Prop :=
  Forall (λ c, (N_of_ascii c < 128)%N) (list_ascii_of_string s).
(** * Properties *)

(** Membership in a list that is written out. *)
Ltac in_list :=
  repeat first [apply list_elem_of_here | apply list_elem_of_further].

(** *** Snapping to the index *)

Section Snap.
Context (index : list Timestamp).

Lemma first_of_filter P `{!∀ t, Decision (P t)} x :
  first_of (filter P index) = Ok x → x ∈ index ∧ P x.
Proof.
  unfold first_of. destruct (head _) as [t|] eqn:E; [|done].
  intros [= ->]. apply head_Some_elem_of, list_elem_of_filter in E. tauto.
Qed.

Lemma last_of_filter P `{!∀ t, Decision (P t)} x :
  last_of (filter P index) = Ok x → x ∈ index ∧ P x.
Proof.
  unfold last_of. destruct (last _) as [t|] eqn:E; [|done].
  intros [= ->]. apply last_Some_elem_of, list_elem_of_filter in E. tauto.
Qed.

Hypothesis index_sorted : StronglySorted Z.lt index.

(** On a sorted index the first selected date is the least one. *)
Lemma first_of_filter_least P `{!∀ t, Decision (P t)} x y :
  first_of (filter P index) = Ok x → y ∈ index → P y → x ≤ y.
Proof.
  unfold first_of. destruct (head _) as [t|] eqn:E; [|done].
  intros [= ->] Hy HP.
  apply head_filter_Some in E as (l1 & l2 & Hl & Hno).
  rewrite Hl in Hy, index_sorted.
  apply elem_of_app in Hy as [Hy|Hy].
  - rewrite Forall_forall in Hno. by destruct (Hno y).
  - apply elem_of_cons in Hy as [->|Hy]; [lia|].
    apply StronglySorted_app_1_r, StronglySorted_cons in index_sorted.
    destruct index_sorted as [Hlt _]. rewrite Forall_forall in Hlt.
    specialize (Hlt y Hy). lia.
Qed.

(** ... and the last selected date is the greatest one. *)
Lemma last_of_filter_greatest P `{!∀ t, Decision (P t)} x y :
  last_of (filter P index) = Ok x → y ∈ index → P y → y ≤ x.
Proof.
  unfold last_of. destruct (last _) as [t|] eqn:E; [|done].
  intros [= ->] Hy HP.
  apply last_filter_Some in E as (l1 & l2 & Hl & Hno).
  rewrite Hl in Hy, index_sorted.
  apply elem_of_app in Hy as [Hy|Hy].
  - assert (y < x); [|lia].
    eapply StronglySorted_app_1_elem_of; [exact index_sorted|done|left].
  - apply elem_of_cons in Hy as [->|Hy]; [lia|].
    rewrite Forall_forall in Hno. by destruct (Hno y).
Qed.
End Snap.

(** What [snap_window] returns, boundary by boundary. *)
Lemma snap_window_inv c index s w :
  snap_window c index s = Ok w →
  first_of (filter (λ t, s ≤ t) index) = Ok (train_start w) ∧
  last_of (filter (λ t, t ≤ train_end_of c s) index) = Ok (train_end w) ∧
  first_of (filter (λ t, train_end w < t) index) = Ok (val_start w) ∧
  last_of (filter (λ t, t ≤ val_end_of c s) index) = Ok (val_end w) ∧
  first_of (filter (λ t, val_end w < t) index) = Ok (test_start w) ∧
  last_of (filter (λ t, t ≤ test_end_of c s) index) = Ok (test_end w).
Proof.
  unfold snap_window. cbv zeta.
  repeat (match goal with
          | |- context [mbind _ ?r] => destruct r eqn:?; simpl; [|done]
          end).
  by intros [= <-].
Qed.

(** The loop appends, to the windows it was given, the snapped windows of
    the successive starts. *)
Lemma windows_loop_inv fuel c index data_end : ∀ s acc ws,
  windows_loop fuel c index data_end s acc = Some (Ok ws) →
  ∃ new, ws = acc ++ new ∧
    ∀ (k : nat) w, new !! k = Some w →
      snap_window c index (Nat.iter k (add_months (roll_months c)) s) = Ok w.
Proof.
  induction fuel as [|fuel IH]; intros s acc ws; simpl; [done|].
  destruct (data_end <? test_end_of c s).
  - intros [= <-]. exists []. split; [by rewrite app_nil_r|]. by intros [|k] w.
  - destruct (snap_window c index s) as [w0|e] eqn:Hsnap; [|done].
    intros (new & -> & Hnew)%IH. exists (w0 :: new).
    split; [by rewrite <-app_assoc|].
    intros [|k] w Hk.
    + by injection Hk as <-.
    + rewrite Nat.iter_succ_r. by apply Hnew.
Qed.

(** *** The windows of the planner *)

Lemma snap_window_from_index c index s w :
  snap_window c index s = Ok w → Forall (.∈ index) (boundaries w).
Proof.
  intros (H1 & H2 & H3 & H4 & H5 & H6)%snap_window_inv.
  apply first_of_filter in H1, H3, H5. apply last_of_filter in H2, H4, H6.
  unfold boundaries. repeat constructor; tauto.
Qed.

Lemma snap_window_gaps c index s w :
  snap_window c index s = Ok w →
  train_end w < val_start w ∧ val_end w < test_start w.
Proof.
  intros (_ & _ & H3 & _ & H5 & _)%snap_window_inv.
  apply first_of_filter in H3, H5. tauto.
Qed.

Lemma snap_window_ordered_iff c index s w :
  StronglySorted Z.lt index →
  snap_window c index s = Ok w →
  strictly_ordered w ↔
    two_dates_in index s (train_end_of c s) ∧
    two_dates_after index (train_end_of c s) (val_end_of c s) ∧
    two_dates_after index (val_end_of c s) (test_end_of c s).
Proof.
  intros Hsorted (H1 & H2 & H3 & H4 & H5 & H6)%snap_window_inv.
  pose proof (first_of_filter _ _ _ H1) as [I1 P1].
  pose proof (last_of_filter _ _ _ H2) as [I2 P2].
  pose proof (first_of_filter _ _ _ H3) as [I3 P3].
  pose proof (last_of_filter _ _ _ H4) as [I4 P4].
  pose proof (first_of_filter _ _ _ H5) as [I5 P5].
  pose proof (last_of_filter _ _ _ H6) as [I6 P6].
  pose proof (λ y, first_of_filter_least _ Hsorted _ _ y H1) as L1.
  pose proof (λ y, last_of_filter_greatest _ Hsorted _ _ y H2) as G2.
  pose proof (λ y, first_of_filter_least _ Hsorted _ _ y H3) as L3.
  pose proof (λ y, last_of_filter_greatest _ Hsorted _ _ y H4) as G4.
  pose proof (λ y, first_of_filter_least _ Hsorted _ _ y H5) as L5.
  pose proof (λ y, last_of_filter_greatest _ Hsorted _ _ y H6) as G6.
  unfold strictly_ordered, two_dates_in, two_dates_after. split.
  - intros (O1 & O2 & O3 & O4 & O5). split_and!.
    + exists (train_start w), (train_end w). split_and!; done.
    + exists (val_start w), (val_end w). split_and!; try done.
      destruct (decide (val_start w ≤ train_end_of c s)) as [Hle|]; [|lia].
      specialize (G2 _ I3 Hle). lia.
    + exists (test_start w), (test_end w). split_and!; try done.
      destruct (decide (test_start w ≤ val_end_of c s)) as [Hle|]; [|lia].
      specialize (G4 _ I5 Hle). lia.
  - intros ((a1 & b1 & Ia1 & Ib1 & ? & ? & ?) & (a2 & b2 & Ia2 & Ib2 & ? & ? & ?)
            & (a3 & b3 & Ia3 & Ib3 & ? & ? & ?)).
    assert (train_start w ≤ a1) by (apply L1; [done|lia]).
    assert (b1 ≤ train_end w) by (apply G2; [done|lia]).
    assert (val_start w ≤ a2) by (apply L3; [done|lia]).
    assert (b2 ≤ val_end w) by (apply G4; [done|lia]).
    assert (test_start w ≤ a3) by (apply L5; [done|lia]).
    assert (b3 ≤ test_end w) by (apply G6; [done|lia]).
    lia.
Qed.

(** On a strictly increasing index, every window the planner emits has its
    six boundaries among the dates of the price index, and its validation
    and test ranges start strictly after the range before them ends.  The
    whole strict chain [train_start < train_end <
    val_start < val_end < test_start < test_end] holds for the [k]-th window
    exactly when the index has two dates in each of its three calendar spans
    (the training span from the window's start, the validation span after it,
    the test span after that). *)
Theorem planner_windows_snapped fuel c (index : list Timestamp) ws
    (data_start : Timestamp) :
  StronglySorted Z.lt index →
  head index = Some data_start →
  generate_walk_forward_windows fuel c index = Some (Ok ws) →
  ∀ (k : nat) w, ws !! k = Some w →
    let s := window_start c data_start k in
    Forall (.∈ index) (boundaries w) ∧
    train_end w < val_start w ∧ val_end w < test_start w ∧
    (strictly_ordered w ↔
       two_dates_in index s (train_end_of c s) ∧
       two_dates_after index (train_end_of c s) (val_end_of c s) ∧
       two_dates_after index (val_end_of c s) (test_end_of c s)).
Proof.
  intros Hsorted Hhead Hgen k w Hk s.
  unfold generate_walk_forward_windows in Hgen. rewrite Hhead in Hgen.
  destruct (last index) as [data_end|]; [|done].
  apply windows_loop_inv in Hgen as (new & -> & Hnew).
  apply Hnew in Hk. fold (window_start c data_start k) in Hk. fold s in Hk.
  split; [by eapply snap_window_from_index|].
  pose proof (snap_window_gaps _ _ _ _ Hk) as [? ?].
  split_and!; [done..|]. by apply snap_window_ordered_iff.
Qed.

Lemma planner_windows_snapped_witness :
  let w := mk_window (date 2020 1 1) (date 2020 2 1) (date 2020 2 2)
             (date 2020 3 1) (date 2020 3 2) (date 2020 4 1) in
  Forall (.∈ daily_index) (boundaries w) ∧
  train_end w < val_start w ∧ val_end w < test_start w.
Proof.
  intros w.
  assert (Hsorted : StronglySorted Z.lt daily_index)
    by (apply (bool_decide_unpack _); vm_compute; exact I).
  assert (Hgen : generate_walk_forward_windows 8 monthly_config daily_index
                 = Some (Ok [w])) by (vm_compute; reflexivity).
  destruct (planner_windows_snapped 8 monthly_config daily_index [w]
              (date 2020 1 1) Hsorted eq_refl Hgen 0%nat w eq_refl)
    as (H1 & H2 & H3 & _).
  exact (conj H1 (conj H2 H3)).
Defined.

(** C4: the planner breaks the strict ordering on a price series of
    monthly bars under the default spans.  The one-month test span holds a
    single bar, so the first window has [test_start = test_end], while its
    six boundaries are dates of the index. *)
Lemma planner_monthly_bars_not_strict :
  ∃ w ws, generate_walk_forward_windows 64 default_config monthly_index
            = Some (Ok (w :: ws)) ∧
          Forall (.∈ monthly_index) (boundaries w) ∧
          test_start w = test_end w ∧ ¬ strictly_ordered w.
Proof.
  eexists _, _. split; [vm_compute; reflexivity|].
  split; [|split; [reflexivity|]].
  - vm_compute. repeat constructor; (apply list_elem_of_In; vm_compute; tauto).
  - unfold strictly_ordered. simpl. lia.
Qed.

(** *** Series operations keep the index *)

Lemma index_map_values f s : index (map_values f s) = index s.
Proof.
  unfold index, map_values. rewrite <-list_fmap_compose.
  apply list_fmap_ext. by intros _ [t x] _.
Qed.

Lemma values_map_values f s : values (map_values f s) = f <$> values s.
Proof.
  unfold values, map_values. rewrite <-!list_fmap_compose.
  apply list_fmap_ext. by intros _ [t x] _.
Qed.

Lemma index_length s : length (index s) = length s.
Proof. apply length_fmap. Qed.

Lemma values_length s : length (values s) = length s.
Proof. apply length_fmap. Qed.






Lemma clip_value_bounds lo hi q : (lo <= hi)%Q → (lo <= clip_value lo hi q <= hi)%Q.
Proof.
  intros Hlh. unfold clip_value. split.
  - apply Q.min_glb; [apply Q.le_max_r|done].
  - apply Q.le_min_r.
Qed.



(** *** The sandbox *)

Section SandboxFacts.
Context (exec : interpreter).

Lemma execute_strategy_ok_inv code prices out :
  execute_strategy exec code prices = Ok out →
  ∃ v signals reindexed,
    exec code prices = ExecDone (Some v) ∧
    make_series v (index prices) = Ok signals ∧
    reindex_ffill signals (index prices) = Ok reindexed ∧
    out = clip (-1) 1 (fillna 0 reindexed).
Proof.
  unfold execute_strategy, execute_strategy_body.
  destruct (exec code prices) as [e|[v|]]; simpl; try done.
  destruct (make_series v (index prices)) as [signals|e] eqn:E1; simpl; [|done].
  destruct (reindex_ffill signals (index prices)) as [re|e] eqn:E2; simpl; [|done].
  intros [= <-]. by exists v, signals, re.
Qed.


(** C8 (as amended): an exception that leaves the run of the submission,
    or the conversion and the alignment of its signals, is raised again as
    a [RuntimeError] whose message is [Strategy execution failed: ]
    followed by its own message when it derives from [Exception].  An
    exception outside [Exception] is not caught and leaves the sandbox as it
    is; when the message of a caught exception cannot be read, the exception
    of the reading leaves the sandbox. *)
Theorem execute_strategy_errors code prices e :
  exec code prices = ExecRaised e ∨
  (∃ v, exec code prices = ExecDone (Some v) ∧
        (make_series v (index prices) = Raise e ∨
         ∃ signals, make_series v (index prices) = Ok signals ∧
                    reindex_ffill signals (index prices) = Raise e)) →
  (is_exception e = true → ∀ message, str_of e = Ok message →
     execute_strategy exec code prices
     = Raise (mk_exn RuntimeError ("Strategy execution failed: " +:+ message))) ∧
  (is_exception e = true → ∀ raised, str_of e = Raise raised →
     execute_strategy exec code prices = Raise raised) ∧
  (is_exception e = false → execute_strategy exec code prices = Raise e).
Proof.
  intros Hraised.
  assert (execute_strategy exec code prices = Raise (reraise e)) as ->.
  { unfold execute_strategy, execute_strategy_body.
    destruct Hraised as [->|(v & -> & [Hmk|(signals & Hmk & Hre)])]; [done|..];
      rewrite Hmk; simpl; [done|]. by rewrite Hre. }
  unfold reraise, execution_failed. split_and!.
  - intros -> message Hstr. rewrite Hstr. by destruct e; simplify_eq/=.
  - intros -> raised Hstr. by rewrite Hstr.
  - by intros ->.
Qed.

End SandboxFacts.


Lemma execute_strategy_errors_witness :
  execute_strategy sample_exec "signals = price.mean(" five_prices
  = Raise (mk_exn RuntimeError
             "Strategy execution failed: '(' was never closed (<string>, line 1)").
Proof.
  destruct (execute_strategy_errors sample_exec "signals = price.mean(" five_prices
              (mk_exn SyntaxError "'(' was never closed (<string>, line 1)"))
    as (H & _ & _); [left; reflexivity|].
  exact (H eq_refl _ eq_refl).
Defined.

(** C8, as the specification states it, fails on a submission that raises
    [SystemExit]: the [except Exception] clause does not catch it, and it
    leaves the sandbox as it is, not as a [RuntimeError]. *)
Lemma execute_strategy_lets_system_exit_through :
  sample_exec "raise SystemExit('stop')" five_prices
  = ExecRaised (mk_exn SystemExit "stop") ∧
  execute_strategy sample_exec "raise SystemExit('stop')" five_prices
  = Raise (mk_exn SystemExit "stop") ∧
  exn_kind (mk_exn SystemExit "stop") ≠ RuntimeError.
Proof. split_and!; [reflexivity|reflexivity|discriminate]. Qed.

(** *** Values of the element-wise operations *)

Lemma values_zip_values f a b :
  values (zip_values f a b) = zip_with f (values a) (values b).
Proof.
  unfold values, zip_values. revert b.
  induction a as [|[t x] a IH]; intros [|[t' y] b]; simpl; [done..|].
  by rewrite IH.
Qed.

Lemma index_zip_values f a b :
  index a = index b → index (zip_values f a b) = index a.
Proof.
  unfold index, zip_values. revert b.
  induction a as [|[t x] a IH]; intros [|[t' y] b]; simpl; try done.
  intros [= -> Hi]. by rewrite IH.
Qed.

Lemma values_shift_from p s :
  values (shift_from p s) = take (length s) (p :: values s).
Proof.
  revert p. induction s as [|[t x] s IH]; intros p; [done|].
  simpl. unfold values in *. simpl. by rewrite IH.
Qed.

Lemma index_shift_from p s : index (shift_from p s) = index s.
Proof.
  revert p. induction s as [|[t x] s IH]; intros p; [done|].
  unfold index in *. simpl. by rewrite IH.
Qed.

Lemma shift1_value_0 s x : values s !! 0%nat = Some x → values (shift1 s) !! 0%nat = Some None.
Proof.
  unfold shift1. rewrite values_shift_from. by destruct s.
Qed.

Lemma shift1_value_S s (i : nat) x y :
  values s !! i = Some x → values s !! S i = Some y →
  values (shift1 s) !! S i = Some x.
Proof.
  intros Hx Hy. unfold shift1. rewrite values_shift_from.
  apply lookup_lt_Some in Hy as Hlt. rewrite values_length in Hlt.
  by rewrite lookup_take_lt by lia.
Qed.

Lemma zip_values_value f a b (i : nat) x y :
  values a !! i = Some x → values b !! i = Some y →
  values (zip_values f a b) !! i = Some (f x y).
Proof.
  intros Hx Hy. rewrite values_zip_values, lookup_zip_with, Hx. simpl. by rewrite Hy.
Qed.

Lemma map_values_value f s (i : nat) x :
  values s !! i = Some x → values (map_values f s) !! i = Some (f x).
Proof. intros Hx. by rewrite values_map_values, list_lookup_fmap, Hx. Qed.

(** *** Transaction costs *)

Section Costs.
Context (c : Config).

Lemma cost_value_of_change positions prices (i : nat) d p :
  values (diff positions) !! i = Some d → values prices !! i = Some p →
  values (calculate_transaction_costs c positions prices) !! i
  = Some (cost_of_change c d p).
Proof.
  intros Hd Hp.
  pose proof (map_values_value (λ x, Some (default 0%Q x)) _ _ _ Hd) as H1.
  pose proof (map_values_value (lift1 Qabs) _ _ _ H1) as H2.
  pose proof (map_values_value (lift1 (λ q, q * total_cost_rate c)%Q) _ _ _ H2) as H3.
  exact (zip_values_value (lift2 Qmult) _ _ _ _ _ H3 Hp).
Qed.

Lemma cost_value_0 positions prices x p :
  values positions !! 0%nat = Some x → values prices !! 0%nat = Some p →
  values (calculate_transaction_costs c positions prices) !! 0%nat
  = Some (cost_of_change c None p).
Proof.
  intros Hx Hp.
  pose proof (zip_values_value (lift2 Qminus) _ _ _ _ _ Hx (shift1_value_0 _ _ Hx)) as Hd.
  rewrite (cost_value_of_change _ _ _ _ _ Hd Hp). by destruct x.
Qed.

Lemma cost_value_S positions prices (i : nat) x_prev x p :
  values positions !! i = Some x_prev → values positions !! S i = Some x →
  values prices !! S i = Some p →
  values (calculate_transaction_costs c positions prices) !! S i
  = Some (cost_of_change c (lift2 Qminus x x_prev) p).
Proof.
  intros Hprev Hx Hp.
  pose proof (zip_values_value (lift2 Qminus) _ _ _ _ _ Hx
                (shift1_value_S _ _ _ _ Hprev Hx)) as Hd.
  exact (cost_value_of_change _ _ _ _ _ Hd Hp).
Qed.

Lemma cost_of_change_nonneg d p :
  (0 <= total_cost_rate c)%Q → (0 < p)%Q →
  ∃ q, cost_of_change c d (Some p) = Some q ∧ (0 <= q)%Q.
Proof.
  intros Hrate Hp. eexists. split; [reflexivity|].
  apply Qmult_le_0_compat; [apply Qmult_le_0_compat|]; [apply Qabs_nonneg|done|lra].
Qed.

Lemma cost_of_no_change x p :
  ∃ q, cost_of_change c (lift2 Qminus x x) (Some p) = Some q ∧ (q == 0)%Q.
Proof.
  unfold cost_of_change. destruct x as [a|]; simpl.
  - eexists. split; [reflexivity|].
    assert (Qabs (a - a) == 0)%Q as Habs.
    { assert (a - a == 0)%Q as Hz by ring. rewrite Hz. reflexivity. }
    rewrite Habs. ring.
  - eexists. split; [reflexivity|]. change (Z.abs 0 # 1) with 0%Q. ring.
Qed.

End Costs.

Lemma positive_not_zero p : (0 < p)%Q → is_zero p = false.
Proof.
  unfold is_zero, Qlt. simpl. intros H. apply Z.eqb_neq. lia.
Qed.

(** C5 (as amended): on positions and strictly positive prices that share
    their index, the cost of a step is [(bid_ask_spread + slippage) ×
    |position(t) − position(t−1)| × price(t)], and it is 0 at a step that
    leaves the position as it was.  It is a number that is never negative
    when the two rates add up to a rate that is not negative.  In the
    returns of a period the cost is divided by the price of the step before,
    and the net return is the strategy return minus that quotient. *)
Theorem transaction_costs_spec c positions prices :
  index positions = index prices →
  Forall (λ p, ∃ q, p = Some q ∧ (0 < q)%Q) (values prices) →
  let costs := calculate_transaction_costs c positions prices in
  let net := net_returns_of c positions prices in
  index costs = index prices ∧
  (∀ (i : nat) a b p,
     values positions !! i = Some (Some b) →
     values positions !! S i = Some (Some a) →
     values prices !! S i = Some (Some p) →
     ∃ q, values costs !! S i = Some (Some q) ∧
          (q == (bid_ask_spread c + slippage c) * Qabs (a - b) * p)%Q) ∧
  ((0 <= bid_ask_spread c + slippage c)%Q →
   ∀ (i : nat) x, values costs !! i = Some x → ∃ q, x = Some q ∧ (0 <= q)%Q) ∧
  (∀ (i : nat) x,
     values positions !! i = Some x → values positions !! S i = Some x →
     ∃ q, values costs !! S i = Some (Some q) ∧ (q == 0)%Q) ∧
  (∀ (i : nat) s cost p,
     values (strategy_returns_of positions prices) !! S i = Some (Some s) →
     values costs !! S i = Some (Some cost) →
     values prices !! i = Some (Some p) →
     ∃ n, values net !! S i = Some (Some n) ∧ (n == s - cost / p)%Q).
Proof.
  intros Hindex Hpos costs net.
  assert (length positions = length prices) as Hlen
    by (by rewrite <-!index_length, Hindex).
  assert (index costs = index prices) as Hci.
  { unfold costs, calculate_transaction_costs, scale, Pandas.abs, fillna, diff.
    rewrite index_zip_values; rewrite ?index_map_values, ?index_zip_values;
      try done; unfold shift1; by rewrite index_shift_from. }
  split_and!; [done|..].
  - intros i a b p Hb Ha Hp. eexists. split.
    + unfold costs. rewrite (cost_value_S c _ _ _ _ _ _ Hb Ha Hp). reflexivity.
    + unfold total_cost_rate. simpl. ring.
  - intros Hrate i x Hx.
    apply lookup_lt_Some in Hx as Hlt.
    rewrite values_length, <-index_length, Hci, index_length in Hlt.
    destruct (lookup_lt_is_Some_2 (values prices) i) as [p Hp];
      [by rewrite values_length|].
    destruct (lookup_lt_is_Some_2 (values positions) i) as [a Ha];
      [rewrite values_length; lia|].
    destruct (Forall_lookup_1 _ _ _ _ Hpos Hp) as (q & -> & Hq).
    destruct i as [|i].
    + unfold costs in Hx. rewrite (cost_value_0 c _ _ _ _ Ha Hp) in Hx.
      injection Hx as <-. by apply cost_of_change_nonneg.
    + destruct (lookup_lt_is_Some_2 (values positions) i) as [b Hb];
        [rewrite values_length; lia|].
      unfold costs in Hx. rewrite (cost_value_S c _ _ _ _ _ _ Hb Ha Hp) in Hx.
      injection Hx as <-. by apply cost_of_change_nonneg.
  - intros i x Hprev Hx.
    apply lookup_lt_Some in Hx as Hlt. rewrite values_length, Hlen in Hlt.
    destruct (lookup_lt_is_Some_2 (values prices) (S i)) as [p Hp];
      [by rewrite values_length|].
    destruct (Forall_lookup_1 _ _ _ _ Hpos Hp) as (q & -> & Hq).
    unfold costs. rewrite (cost_value_S c _ _ _ _ _ _ Hprev Hx Hp).
    destruct (cost_of_no_change c x q) as (z & Hz & Hz0).
    exists z. by rewrite Hz.
  - intros i s cost p Hs Hcost Hp.
    apply lookup_lt_Some in Hcost as Hlt.
    rewrite values_length, <-index_length, Hci, index_length in Hlt.
    destruct (lookup_lt_is_Some_2 (values prices) (S i)) as [p' Hp'];
      [by rewrite values_length|].
    destruct (Forall_lookup_1 _ _ _ _ Hpos Hp) as (q & [= <-] & Hq).
    pose proof (map_values_value (lift1 Qopp) _ _ _ Hcost) as H1.
    pose proof (zip_values_value fdiv _ _ _ _ _ H1 (shift1_value_S _ _ _ _ Hp Hp')) as H2.
    pose proof (map_values_value (λ x, Some (default 0%Q x)) _ _ _ H2) as H3.
    pose proof (zip_values_value (lift2 Qplus) _ _ _ _ _ Hs H3) as H4.
    subst costs net. unfold net_returns_of, cost_returns_of, fillna, neg in *.
    rewrite H4. simpl. rewrite (positive_not_zero _ Hq). simpl.
    eexists. split; [reflexivity|]. field. lra.
Qed.

Lemma transaction_costs_spec_witness :
  let costs := calculate_transaction_costs default_config five_positions five_prices in
  index costs = index five_prices ∧
  (∃ q, values costs !! 1%nat = Some (Some q) ∧
        (q == ((1 # 1000) + (1 # 1000)) * 1 * 101)%Q) ∧
  (∃ q, values costs !! 2%nat = Some (Some q) ∧ (q == 0)%Q) ∧
  (∃ q, values costs !! 4%nat = Some (Some q) ∧ (0 <= q)%Q).
Proof.
  intros costs.
  assert (Forall (λ p, ∃ q, p = Some q ∧ (0 < q)%Q) (values five_prices)) as Hpos
    by (repeat constructor; eexists; (split; [reflexivity|by vm_compute])).
  destruct (transaction_costs_spec default_config five_positions five_prices
              eq_refl Hpos) as (H1 & H2 & H3 & H4 & _).
  split_and!; [exact H1| | |].
  - destruct (H2 0%nat 1%Q 0%Q 101%Q eq_refl eq_refl eq_refl) as (q & Hq & Heq).
    exists q. split; [exact Hq|]. rewrite Heq. reflexivity.
  - exact (H4 1%nat (Some 1%Q) eq_refl eq_refl).
  - assert (0 <= bid_ask_spread default_config + slippage default_config)%Q as Hrate
      by (by vm_compute).
    assert (∃ x, values costs !! 4%nat = Some x) as [x Hx]
      by (eexists; vm_compute; reflexivity).
    destruct (H3 Hrate 4%nat x Hx) as (q & Hq & Hle).
    exists q. split; [rewrite Hx, Hq; reflexivity|exact Hle].
Defined.

(** C5, as the specification states it, fails under a configuration whose
    spread is negative: going from flat to long at the price 101 with a
    spread of -1/100 and no slippage costs -101/100. *)
Lemma transaction_cost_negative_under_negative_rate :
  let c := mk_config 36 6 1 1 (-1 # 100) 0 in
  Forall (λ p, ∃ q, p = Some q ∧ (0 < q)%Q) (values five_prices) ∧
  ∃ q, values (calculate_transaction_costs c five_positions five_prices) !! 1%nat
       = Some (Some q) ∧ (q < 0)%Q.
Proof.
  intros c. split.
  - repeat constructor; eexists; (split; [reflexivity|by vm_compute]).
  - eexists. split; [vm_compute; reflexivity|by vm_compute].
Qed.

(** *** Keys of the aggregate metrics *)

Lemma period_key_differs p p' suffix suffix' :
  p ≠ p' → period_name p +:+ suffix ≠ period_name p' +:+ suffix'.
Proof. intros Hne Heq. destruct p, p'; simpl in Heq; try done; discriminate Heq. Qed.

Lemma append_inj_r (p s1 s2 : string) : p +:+ s1 = p +:+ s2 → s1 = s2.
Proof. induction p as [|a p IH]; simpl; [done|]. intros [= H]. auto. Qed.

Section AggregateFacts.
Context (sqrt : Q → Q).

(** The metrics of one period leave the keys of the other names alone. *)
Lemma add_period_metrics_other p prs m k :
  (∀ suffix, k ≠ p +:+ suffix) →
  add_period_metrics sqrt p prs m !! k = m !! k.
Proof.
  intros Hk. unfold add_period_metrics.
  by rewrite !lookup_insert_ne by (apply not_eq_sym, Hk).
Qed.

Lemma add_period_metrics_unknown p prs m suffix :
  suffix ∉ period_suffixes →
  add_period_metrics sqrt p prs m !! (p +:+ suffix) = m !! (p +:+ suffix).
Proof.
  intros Hs. unfold add_period_metrics.
  rewrite !lookup_insert_ne; [done|..];
    intros Heq%append_inj_r; apply Hs; rewrite <-Heq;
    unfold period_suffixes; in_list.
Qed.

Lemma add_period_metrics_known p prs m :
  let agg := add_period_metrics sqrt p prs m in
  let sharpe_ratios := sharpe_ratio <$> prs in
  agg !! (p +:+ "_avg_sharpe") = Some (Numpy.mean sharpe_ratios) ∧
  agg !! (p +:+ "_avg_return") = Some (Numpy.mean (total_return <$> prs)) ∧
  agg !! (p +:+ "_avg_maxdd") = Some (Numpy.mean (max_drawdown <$> prs)) ∧
  agg !! (p +:+ "_avg_turnover") = Some (Numpy.mean (turnover <$> prs)) ∧
  agg !! (p +:+ "_avg_beta") = Some (Numpy.mean (beta <$> prs)) ∧
  agg !! (p +:+ "_sharpe_std") = Some (Numpy.std sqrt sharpe_ratios) ∧
  agg !! (p +:+ "_min_sharpe") = Some (Numpy.amin sharpe_ratios) ∧
  agg !! (p +:+ "_unstable_windows")
    = Some (Some (Numpy.count (filter (λ s, Numpy.flt s (3 # 10)) sharpe_ratios))).
Proof.
  intros agg sharpe_ratios. subst agg. unfold add_period_metrics.
  split_and!;
    (repeat (rewrite lookup_insert_ne by (by intros Heq%append_inj_r)));
    by rewrite lookup_insert_eq.
Qed.

Lemma aggregate_step_other rs m p p' suffix :
  p ≠ p' →
  aggregate_step sqrt rs m p' !! (period_name p +:+ suffix) = m !! (period_name p +:+ suffix).
Proof.
  intros Hne. unfold aggregate_step. destruct (period_results rs p'); [done|].
  apply add_period_metrics_other. intros suffix'. by apply period_key_differs.
Qed.

Lemma add_period_metrics_congr p prs m m' k :
  m !! k = m' !! k →
  add_period_metrics sqrt p prs m !! k = add_period_metrics sqrt p prs m' !! k.
Proof.
  intros Hk. unfold add_period_metrics. rewrite !lookup_insert.
  repeat case_decide; done.
Qed.

Lemma aggregate_step_congr rs m m' p k :
  m !! k = m' !! k → aggregate_step sqrt rs m p !! k = aggregate_step sqrt rs m' p !! k.
Proof.
  intros Hk. unfold aggregate_step. destruct (period_results rs p); [done|].
  by apply add_period_metrics_congr.
Qed.

Lemma aggregate_lookup rs p suffix :
  calculate_aggregate_metrics sqrt rs !! (period_name p +:+ suffix)
  = aggregate_step sqrt rs ∅ p !! (period_name p +:+ suffix).
Proof.
  change (calculate_aggregate_metrics sqrt rs)
    with (aggregate_step sqrt rs (aggregate_step sqrt rs (aggregate_step sqrt rs ∅ Train) Validation) Test).
  destruct p.
  - by rewrite !aggregate_step_other by done.
  - rewrite aggregate_step_other by done. apply aggregate_step_congr.
    by rewrite aggregate_step_other by done.
  - apply aggregate_step_congr. by rewrite !aggregate_step_other by done.
Qed.

End AggregateFacts.

Lemma aggregate_empty_period sqrt rs p suffix :
  period_results rs p = [] →
  calculate_aggregate_metrics sqrt rs !! (period_name p +:+ suffix) = None.
Proof.
  intros Hnil. rewrite aggregate_lookup. unfold aggregate_step. by rewrite Hnil.
Qed.

(** C9 (as amended): for each of the three periods on its own, a period
    without results leaves no entry in the report, and a period with results
    gets exactly eight entries: the means of the Sharpe ratio, the total
    return, the maximum drawdown, the turnover and the beta of its results
    (and of no other measure), the standard deviation and the minimum of the
    Sharpe ratios, and the number of Sharpe ratios below 0.3. *)
Theorem aggregate_metrics_report sqrt rs p :
  let agg := calculate_aggregate_metrics sqrt rs in
  let prs := period_results rs p in
  let sharpe_ratios := sharpe_ratio <$> prs in
  let key suffix := period_name p +:+ suffix in
  (prs = [] → ∀ suffix, agg !! key suffix = None) ∧
  (prs ≠ [] →
   agg !! key "_avg_sharpe" = Some (Numpy.mean sharpe_ratios) ∧
   agg !! key "_avg_return" = Some (Numpy.mean (total_return <$> prs)) ∧
   agg !! key "_avg_maxdd" = Some (Numpy.mean (max_drawdown <$> prs)) ∧
   agg !! key "_avg_turnover" = Some (Numpy.mean (turnover <$> prs)) ∧
   agg !! key "_avg_beta" = Some (Numpy.mean (beta <$> prs)) ∧
   agg !! key "_sharpe_std" = Some (Numpy.std sqrt sharpe_ratios) ∧
   agg !! key "_min_sharpe" = Some (Numpy.amin sharpe_ratios) ∧
   agg !! key "_unstable_windows"
     = Some (Some (Numpy.count (filter (λ s, Numpy.flt s (3 # 10)) sharpe_ratios))) ∧
   ∀ suffix, suffix ∉ period_suffixes → agg !! key suffix = None).
Proof.
  intros agg prs sharpe_ratios key. subst agg key. split.
  - intros Hnil suffix. rewrite aggregate_lookup. unfold aggregate_step.
    fold prs. by rewrite Hnil.
  - intros Hne. rewrite !aggregate_lookup. unfold aggregate_step. fold prs.
    destruct prs as [|r prs'] eqn:E; [done|].
    destruct (add_period_metrics_known sqrt (period_name p) (r :: prs') ∅)
      as (H1 & H2 & H3 & H4 & H5 & H6 & H7 & H8).
    split_and!; try done.
    intros suffix Hs. rewrite aggregate_lookup. unfold aggregate_step. fold prs.
    rewrite E. by rewrite add_period_metrics_unknown, lookup_empty.
Qed.

Lemma aggregate_metrics_report_witness :
  let agg := calculate_aggregate_metrics sample_sqrt sample_results in
  agg !! "train_avg_sharpe" = None ∧
  agg !! "test_min_sharpe" = Some (Some (1 # 10)) ∧
  agg !! "test_unstable_windows" = Some (Some 1%Q) ∧
  agg !! "test_avg_volatility" = None.
Proof.
  intros agg.
  destruct (aggregate_metrics_report sample_sqrt sample_results Train) as [Hempty _].
  destruct (aggregate_metrics_report sample_sqrt sample_results Test) as [_ Hfull].
  destruct Hfull as (_ & _ & _ & _ & _ & _ & H7 & H8 & Hother); [done|].
  split_and!.
  - exact (Hempty eq_refl "_avg_sharpe").
  - exact H7.
  - exact H8.
  - apply (Hother "_avg_volatility"). unfold period_suffixes.
    rewrite !not_elem_of_cons. split_and!; try done. apply not_elem_of_nil.
Defined.

(** C9, as the specification states it, fails on two test windows with
    volatilities 4 and 6: their mean, 5, is no entry of the report, whose
    values all stay below 1. *)
Lemma aggregate_omits_volatility :
  let agg := calculate_aggregate_metrics sample_sqrt sample_results in
  (∃ m, Numpy.mean (volatility <$> test_results sample_results) = Some m ∧ (m == 5)%Q) ∧
  agg !! "test_avg_volatility" = None ∧
  map_Forall (λ _ v, ∃ q, v = Some q ∧ (q <= 1)%Q) agg.
Proof.
  intros agg. split_and!.
  - eexists. split; [vm_compute; reflexivity|]. by vm_compute.
  - by vm_compute.
  - apply map_Forall_to_list.
    set (l := map_to_list agg). vm_compute in l. subst l.
    repeat constructor; simpl; (eexists; split; [reflexivity|by vm_compute]).
Qed.

(** *** The walk-forward loop *)

Section WalkForwardFacts.
Context (print : console) (exec : interpreter) (stats : statistics).
Context (sqrt : Q → Q) (c : Config).
Context (strategy_code : string) (data : Series).

#[local] Abbreviation run := (run_backtest_period exec stats c strategy_code data).
#[local] Abbreviation loop := (run_windows print exec stats c strategy_code data).

Lemma run_window_results i w rs :
  (run_window exec stats c strategy_code data i w rs).1
  = mk_results (train_results rs ++ kept_train run i w)
      (validation_results rs ++ kept_validation run i w)
      (test_results rs ++ kept_test run i w).
Proof.
  unfold run_window, kept_train, kept_validation, kept_test,
    train_run, validation_run, test_run.
  destruct rs as [tr va te].
  destruct (run (train_start w) (train_end w)); simpl;
    [|by rewrite !app_nil_r].
  destruct (run (val_start w) (val_end w)); simpl; [|by rewrite !app_nil_r].
  destruct (run (test_start w) (test_end w)); simpl; by rewrite ?app_nil_r.
Qed.

Lemma run_window_failure i w rs :
  (run_window exec stats c strategy_code data i w rs).2 = failure run w.
Proof.
  unfold run_window, failure, train_run, validation_run, test_run.
  destruct (run (train_start w) (train_end w)); [|done].
  destruct (run (val_start w) (val_end w)); [|done].
  by destruct (run (test_start w) (test_end w)).
Qed.

Lemma gathered_cons i w ws rs :
  gathered run i (w :: ws) rs
  = gathered run (S i) ws (run_window exec stats c strategy_code data i w rs).1.
Proof.
  rewrite run_window_results. unfold gathered. simpl.
  rewrite <-!app_assoc, !Nat.add_0_r. f_equal; do 3 f_equal;
    apply imap_ext; intros k x _; simpl; f_equal; lia.
Qed.

Lemma gathered_nil i rs : gathered run i [] rs = rs.
Proof. destruct rs. unfold gathered. simpl. by rewrite !app_nil_r. Qed.

(** The loop goes through the windows as long as each failure is caught
    and printed. *)
Lemma run_windows_handled ws : ∀ i rs,
  (∀ (k : nat) w e, ws !! k = Some w → failure run w = Some e →
     window_handler print (i + k) e = None) →
  loop i ws rs = (gathered run i ws rs, None).
Proof.
  induction ws as [|w ws IH]; intros i rs Hall.
  - by rewrite gathered_nil.
  - rewrite gathered_cons. simpl.
    pose proof (run_window_failure i w rs) as Hf.
    destruct (run_window exec stats c strategy_code data i w rs) as [rs' f].
    simpl in Hf. subst f. simpl.
    assert (failure run w ≫= window_handler print i = None) as ->.
    { destruct (failure run w) as [e|] eqn:E; [|done]. simpl.
      specialize (Hall 0%nat w e eq_refl E). by rewrite Nat.add_0_r in Hall. }
    apply IH. intros k w0 e0 Hk He0.
    specialize (Hall (S k) w0 e0 Hk He0). by rewrite Nat.add_succ_r in Hall.
Qed.

(** The first failure that is not ends it, with what was gathered. *)
Lemma run_windows_aborted pre w post e raised : ∀ i rs,
  (∀ (k : nat) w0 e0, pre !! k = Some w0 → failure run w0 = Some e0 →
     window_handler print (i + k) e0 = None) →
  failure run w = Some e →
  window_handler print (i + length pre) e = Some raised →
  loop i (pre ++ w :: post) rs = (gathered run i (pre ++ [w]) rs, Some raised).
Proof.
  induction pre as [|w0 pre IH]; intros i rs Hall He Hraised.
  - simpl. rewrite gathered_cons, gathered_nil.
    pose proof (run_window_failure i w rs) as Hf.
    destruct (run_window exec stats c strategy_code data i w rs) as [rs' f].
    simpl in Hf. subst f. simpl. rewrite He. simpl.
    simpl in Hraised. rewrite Nat.add_0_r in Hraised. by rewrite Hraised.
  - change ((w0 :: pre) ++ w :: post) with (w0 :: (pre ++ w :: post)).
    change ((w0 :: pre) ++ [w]) with (w0 :: (pre ++ [w])).
    rewrite gathered_cons. simpl.
    pose proof (run_window_failure i w0 rs) as Hf.
    destruct (run_window exec stats c strategy_code data i w0 rs) as [rs' f].
    simpl in Hf. subst f. simpl.
    assert (failure run w0 ≫= window_handler print i = None) as ->.
    { destruct (failure run w0) as [e0|] eqn:E; [|done]. simpl.
      specialize (Hall 0%nat w0 e0 eq_refl E). by rewrite Nat.add_0_r in Hall. }
    apply IH; [|done|].
    + intros k w1 e1 Hk He1.
      specialize (Hall (S k) w1 e1 Hk He1). by rewrite Nat.add_succ_r in Hall.
    + simpl in Hraised. by rewrite Nat.add_succ_r in Hraised.
Qed.

(** Ended or not, the loop leaves the results of the windows it went
    through. *)
Lemma run_windows_gathered ws : ∀ i rs,
  ∃ n, (n ≤ length ws)%nat ∧ (loop i ws rs).1 = gathered run i (take n ws) rs.
Proof.
  induction ws as [|w ws IH]; intros i rs.
  - exists 0%nat. split; [done|]. by rewrite gathered_nil.
  - cbn [run_windows].
    pose proof (gathered_cons i w [] rs) as Hone.
    pose proof (λ n, gathered_cons i w (take n ws) rs) as Hcons.
    destruct (run_window exec stats c strategy_code data i w rs) as [rs' f].
    cbn [fst] in Hone, Hcons. rewrite gathered_nil in Hone.
    destruct (f ≫= window_handler print i) as [e|].
    + exists 1%nat. split; [simpl; lia|].
      change (take 1 (w :: ws)) with (w :: take 0 ws). rewrite take_0. by rewrite Hone.
    + destruct (IH (S i) rs') as (n & Hn & ->).
      exists (S n). split; [simpl; lia|].
      change (take (S n) (w :: ws)) with (w :: take n ws). by rewrite Hcons.
Qed.

Lemma window_handler_caught i e :
  window_handler print i e = None ↔
  is_exception e = true ∧
  ∃ message, str_of e = Ok message ∧ print (window_error_message i message) = Ok ().
Proof.
  unfold window_handler. destruct (is_exception e); [|by split; [|intros [? _]]].
  destruct (str_of e) as [message|raised]; simpl.
  - destruct (print (window_error_message i message)) as [[]|raised] eqn:E.
    + split; [|done]. intros _. split; [done|]. by exists message.
    + split; [done|]. intros (_ & m & [= <-] & Hp). by rewrite E in Hp.
  - split; [done|]. by intros (_ & m & ? & _).
Qed.

(** C2 (as amended): a window leaves in the result lists what its periods
    produced before the first one that raised: nothing when the train
    period raises, its train result when the validation period raises, its
    train and validation results when the test period raises.  The
    exception is caught when it derives from [Exception]; once its message
    is printed the loop goes on with the next window, so a run in which
    every failure is caught and printed goes through all the windows and
    returns a report.  An exception outside [Exception], and an error in
    reading or printing the message, end the loop: the run raises it. *)
Theorem walk_forward_window_failures windows :
  (∀ (i : nat) w, windows !! i = Some w →
     (is_ok (train_run run w) = false →
        kept_train run i w = [] ∧ kept_validation run i w = [] ∧
        kept_test run i w = []) ∧
     (∀ r, train_run run w = Ok r → is_ok (validation_run run w) = false →
        kept_train run i w = [set_window_id i r] ∧
        kept_validation run i w = [] ∧ kept_test run i w = []) ∧
     (∀ r r', train_run run w = Ok r → validation_run run w = Ok r' →
        is_ok (test_run run w) = false →
        kept_train run i w = [set_window_id i r] ∧
        kept_validation run i w = [set_window_id i r'] ∧
        kept_test run i w = [])) ∧
  (∀ (i : nat) e, window_handler print i e = None ↔
     is_exception e = true ∧
     ∃ message, str_of e = Ok message ∧
                print (window_error_message i message) = Ok ()) ∧
  ((∀ (i : nat) w e, windows !! i = Some w → failure run w = Some e →
      window_handler print i e = None) →
   let rs := mk_results (concat (imap (kept_train run) windows))
               (concat (imap (kept_validation run) windows))
               (concat (imap (kept_test run) windows)) in
   loop 0 windows no_results = (rs, None) ∧
   (windows ≠ [] →
    backtest_windows print exec stats sqrt c strategy_code data windows
    = Ok (mk_report rs windows (calculate_aggregate_metrics sqrt rs)))) ∧
  (∀ pre w post e raised,
     windows = pre ++ w :: post →
     (∀ (i : nat) w0 e0, pre !! i = Some w0 → failure run w0 = Some e0 →
        window_handler print i e0 = None) →
     failure run w = Some e →
     window_handler print (length pre) e = Some raised →
     loop 0 windows no_results
     = (mk_results (concat (imap (kept_train run) (pre ++ [w])))
          (concat (imap (kept_validation run) (pre ++ [w])))
          (concat (imap (kept_test run) (pre ++ [w]))), Some raised) ∧
     backtest_windows print exec stats sqrt c strategy_code data windows
     = Raise raised).
Proof.
  split_and!.
  - intros i w _. unfold kept_train, kept_validation, kept_test. split_and!.
    + destruct (train_run run w); [done|]. by intros _.
    + intros r -> Hv. simpl. by destruct (validation_run run w).
    + intros r r' -> -> Ht. simpl. by destruct (test_run run w).
  - apply window_handler_caught.
  - intros Hall rs.
    assert (loop 0 windows no_results = (rs, None)) as Hloop
      by (by rewrite run_windows_handled).
    split; [done|]. intros Hne. unfold backtest_windows.
    destruct windows as [|w ws]; [done|]. by rewrite Hloop.
  - intros pre w post e raised -> Hall He Hraised.
    assert (loop 0 (pre ++ w :: post) no_results
            = (gathered run 0 (pre ++ [w]) no_results, Some raised)) as Hloop
      by (by eapply run_windows_aborted).
    split; [done|]. unfold backtest_windows.
    destruct (pre ++ w :: post) eqn:E; [by destruct pre|]. by rewrite Hloop.
Qed.

(** C1 (as amended): when the planner gives at least one window, no window
    produces a test-period result, and every period that fails raises an
    exception that the loop catches and prints, [run_walk_forward_backtest]
    does not fail: it returns a report with the windows, the train and
    validation results the windows kept, an empty list of test results and
    no test entry among the aggregate metrics. *)
Theorem walk_forward_without_test_results fuel windows :
  generate_walk_forward_windows fuel c (index data) = Some (Ok windows) →
  windows ≠ [] →
  (∀ (i : nat) w, windows !! i = Some w → kept_test run i w = []) →
  (∀ (i : nat) w e, windows !! i = Some w → failure run w = Some e →
     window_handler print i e = None) →
  ∃ report,
    run_walk_forward_backtest print exec stats sqrt c fuel strategy_code data
    = Some (Ok report) ∧
    report_windows report = windows ∧
    train_results (report_results report) = concat (imap (kept_train run) windows) ∧
    validation_results (report_results report)
    = concat (imap (kept_validation run) windows) ∧
    test_results (report_results report) = [] ∧
    ∀ suffix, report_aggregate report !! ("test" +:+ suffix) = None.
Proof.
  intros Hgen Hne Hnone Hall. unfold run_walk_forward_backtest. rewrite Hgen.
  unfold backtest_windows. destruct windows as [|w ws] eqn:Ews; [done|].
  rewrite <-Ews in *. rewrite (run_windows_handled windows 0 no_results Hall).
  assert (test_results (gathered run 0 windows no_results) = []) as Htest.
  { simpl. clear -Hnone. revert Hnone.
    generalize (kept_test run) as f. induction windows as [|w0 ws0 IH]; intros f Hf; [done|].
    simpl. rewrite (Hf 0%nat w0 eq_refl). simpl. apply IH.
    intros i w' Hi. exact (Hf (S i) w' Hi). }
  eexists. split; [reflexivity|]. simpl. split_and!; try done.
  intros suffix. by apply (aggregate_empty_period sqrt _ Test).
Qed.

End WalkForwardFacts.

Lemma walk_forward_window_failures_witness :
  let w := mk_window (date 2015 1 1) (date 2018 1 1) (date 2018 2 1)
             (date 2018 7 1) (date 2018 8 1) (date 2018 8 1) in
  run_windows sample_console sample_exec sample_stats default_config "signals = 1.0"
    monthly_prices 0 [w] no_results
  = (mk_results [set_window_id 0 flat_result] [set_window_id 0 flat_result] [], None) ∧
  backtest_windows sample_console sample_exec sample_stats sample_sqrt default_config
    "raise SystemExit('stop')" monthly_prices [w]
  = Raise (mk_exn SystemExit "stop").
Proof.
  intros w. split.
  - destruct (walk_forward_window_failures sample_console sample_exec sample_stats
                sample_sqrt default_config "signals = 1.0" monthly_prices [w])
      as (_ & _ & Hgo & _).
    destruct Hgo as [Hloop _].
    + intros [|i] w0 e Hw He; [|done]. injection Hw as <-.
      vm_compute in He. injection He as <-. reflexivity.
    + rewrite Hloop. vm_compute. reflexivity.
  - destruct (walk_forward_window_failures sample_console sample_exec sample_stats
                sample_sqrt default_config "raise SystemExit('stop')" monthly_prices [w])
      as (_ & _ & _ & Hstop).
    destruct (Hstop [] w [] (mk_exn SystemExit "stop") (mk_exn SystemExit "stop"))
      as [_ Hraise]; [reflexivity|by intros []|vm_compute; reflexivity|reflexivity|].
    exact Hraise.
Defined.

(** Under the default spans a series of monthly bars gives every window a
    one-bar test period, which raises; C2 as the specification states it
    fails there, since the train and validation results of the window stay
    in their lists. *)
Lemma walk_forward_keeps_partial_results :
  ∃ w ws report,
    generate_walk_forward_windows 64 default_config (index monthly_prices)
      = Some (Ok (w :: ws)) ∧
    run_backtest_period sample_exec sample_stats default_config "signals = 1.0"
      monthly_prices (test_start w) (test_end w) = Raise insufficient_period_data ∧
    run_walk_forward_backtest sample_console sample_exec sample_stats sample_sqrt
      default_config 64 "signals = 1.0" monthly_prices = Some (Ok report) ∧
    train_results (report_results report) !! 0%nat = Some (set_window_id 0 flat_result) ∧
    validation_results (report_results report) !! 0%nat = Some (set_window_id 0 flat_result) ∧
    test_results (report_results report) = [].
Proof.
  eexists _, _, _. split_and!; [vm_compute; reflexivity..].
Qed.

Lemma walk_forward_without_test_results_witness :
  ∃ report,
    run_walk_forward_backtest sample_console sample_exec sample_stats sample_sqrt
      monthly_config 8 "price_mean = price.mean()" daily_prices = Some (Ok report) ∧
    test_results (report_results report) = [] ∧
    report_aggregate report !! "test_avg_sharpe" = None.
Proof.
  pose (w := mk_window (date 2020 1 1) (date 2020 2 1) (date 2020 2 2)
               (date 2020 3 1) (date 2020 3 2) (date 2020 4 1)).
  assert (generate_walk_forward_windows 8 monthly_config (index daily_prices)
          = Some (Ok [w])) as Hgen by (vm_compute; reflexivity).
  destruct (walk_forward_without_test_results sample_console sample_exec sample_stats
              sample_sqrt monthly_config "price_mean = price.mean()" daily_prices
              8 [w] Hgen)
    as (report & Hrun & _ & _ & _ & Htest & Hagg).
  - discriminate.
  - intros [|i] w0 Hw; [|done]. injection Hw as <-. vm_compute. reflexivity.
  - intros [|i] w0 e Hw He; [|done]. injection Hw as <-.
    vm_compute in He. injection He as <-. reflexivity.
  - exists report. split_and!; [exact Hrun|exact Htest|exact (Hagg "_avg_sharpe")].
Defined.

(** C1, as the specification states it, fails on the scenario it names: a
    strategy that never binds [signals], run over a hundred daily bars with
    one-month spans, has one window and no result at all, and the call
    returns a report instead of raising. *)
Lemma walk_forward_returns_without_valid_windows :
  ∃ report,
    run_walk_forward_backtest sample_console sample_exec sample_stats sample_sqrt
      monthly_config 8 "price_mean = price.mean()" daily_prices = Some (Ok report) ∧
    length (report_windows report) = 1%nat ∧
    report_results report = no_results ∧
    report_aggregate report = ∅.
Proof.
  eexists. split_and!; [vm_compute; reflexivity|by vm_compute..].
Qed.

(** *** The guard rail *)

Lemma ast_nested_ind (P : ast → Prop) :
  (∀ names, P (Import names)) →
  (∀ module names, P (ImportFrom module names)) →
  (∀ func args keywords,
     P func → Forall P args → Forall P keywords → P (Call func args keywords)) →
  (∀ value attr, P value → P (Attribute value attr)) →
  (∀ id, P (Name id)) →
  (∀ text, P (Constant text)) →
  (∀ children, Forall P children → P (Node children)) →
  ∀ node, P node.
Proof.
  intros HImport HFrom HCall HAttr HName HConst HNode.
  refine (fix IH node : P node :=
            match node with
            | Import names => HImport names
            | ImportFrom module names => HFrom module names
            | Call func args keywords =>
                HCall func args keywords (IH func)
                  ((fix go l : Forall P l :=
                      match l with
                      | [] => Forall_nil_2 _
                      | n :: l' => Forall_cons_2 _ _ _ (IH n) (go l')
                      end) args)
                  ((fix go l : Forall P l :=
                      match l with
                      | [] => Forall_nil_2 _
                      | n :: l' => Forall_cons_2 _ _ _ (IH n) (go l')
                      end) keywords)
            | Attribute value attr => HAttr value attr (IH value)
            | Name id => HName id
            | Constant text => HConst text
            | Node children =>
                HNode children
                  ((fix go l : Forall P l :=
                      match l with
                      | [] => Forall_nil_2 _
                      | n :: l' => Forall_cons_2 _ _ _ (IH n) (go l')
                      end) children)
            end).
Qed.



Lemma walk_ok_inv stack handled here tree vs :
  walk stack handled here tree = Ok vs →
  (frames handled tree ≤ stack)%nat ∧ vs = visit here tree.
Proof. unfold walk. case_bool_decide; [|done]. by intros [= <-]. Qed.


Lemma check_strategy_parsed_inv parse stack code data tree v :
  parse code = Parsed tree →
  check_strategy parse stack code data = Ok v →
  ∃ from_tree sizing from_files,
    check_ast stack tree = Ok from_tree ∧
    match data with
    | Some _ => check_position_sizing code
    | None => Ok []
    end = Ok sizing ∧
    check_file_operations stack tree = Ok from_files ∧
    errors v = check_banned_patterns code ++ from_tree
               ++ check_forward_looking code ++ sizing
               ++ from_files ++ check_network_operations code ∧
    passed v = bool_decide (length (errors v) = 0%nat).
Proof.
  intros Hparse. unfold check_strategy. rewrite Hparse.
  destruct (check_ast stack tree) as [from_tree|e]; cbn [mbind result_bind]; [|done].
  destruct (match data with Some _ => _ | None => _ end) as [sizing|e];
    cbn [mbind result_bind]; [|done].
  destruct (check_file_operations stack tree) as [from_files|e];
    cbn [mbind result_bind]; [|done].
  intros [= <-]. exists from_tree, sizing, from_files. simpl.
  split_and!; [done..| |done]. by rewrite <-!app_assoc.
Qed.

Section GuardRailFacts.
Context (parse : parser).

(** C6: a submission on which [ast.parse] fails with an exception that is
    no [SyntaxError] gets no verdict: the [except SyntaxError] clause lets
    the exception through, and it leaves [check_strategy]. *)
Theorem check_strategy_raises_on_unparsable stack code data e :
  parse code = ParseRaised e → exn_kind e ≠ SyntaxError →
  check_strategy parse stack code data = Raise e.
Proof.
  intros Hparse Hkind. unfold check_strategy. rewrite Hparse.
  by rewrite bool_decide_eq_false_2.
Qed.

(** A submission that [ast.parse] rejects with a syntax error gets, at
    once, a failed verdict with one violation, [Syntax error: ] followed by
    the parser's message; for a submission that parses, a verdict that comes
    back has passed exactly when its list of violations is empty. *)
Theorem check_strategy_verdict stack code data :
  (∀ e message, parse code = ParseRaised e → exn_kind e = SyntaxError →
     str_of e = Ok message →
     check_strategy parse stack code data
     = Ok (mk_verdict false [SyntaxViolation message])) ∧
  (∀ tree v, parse code = Parsed tree →
     check_strategy parse stack code data = Ok v →
     (passed v = true ↔ errors v = [])).
Proof.
  split.
  - intros e message Hparse Hkind Hstr. unfold check_strategy.
    rewrite Hparse, bool_decide_eq_true_2 by done. by rewrite Hstr.
  - intros tree v Hparse Hv.
    destruct (check_strategy_parsed_inv parse stack code data tree v Hparse Hv)
      as (from_tree & sizing & from_files & _ & _ & _ & _ & Hpassed).
    rewrite Hpassed, bool_decide_eq_true. apply length_zero_iff_nil.
Qed.


End GuardRailFacts.

Lemma check_strategy_raises_on_unparsable_witness :
  check_strategy sample_parse 1000 null_text None
  = Raise (mk_exn ValueError "source code string cannot contain null bytes").
Proof.
  apply check_strategy_raises_on_unparsable; [reflexivity|discriminate].
Defined.

Lemma check_strategy_verdict_witness :
  let v := mk_verdict false [BannedImport "os"] in
  check_strategy sample_parse 1000 "signals = price.shift(" None
  = Ok (mk_verdict false [SyntaxViolation "'(' was never closed (<unknown>, line 1)"]) ∧
  check_strategy sample_parse 1000 "import os" None = Ok v ∧
  (passed v = true ↔ errors v = []).
Proof.
  intros v.
  destruct (check_strategy_verdict sample_parse 1000 "signals = price.shift(" None)
    as [Hsyntax _].
  destruct (check_strategy_verdict sample_parse 1000 "import os" None) as [_ Hpassed].
  assert (check_strategy sample_parse 1000 "import os" None = Ok v) as Hv
    by (vm_compute; reflexivity).
  split_and!.
  - exact (Hsyntax _ _ eq_refl eq_refl eq_refl).
  - exact Hv.
  - exact (Hpassed (Node [Import ["os"]]) v eq_refl Hv).
Defined.



(** *** Literal patterns *)

Section Literal.
Import Re.

Lemma run_literal_chars lit : ∀ w rest,
  to_lower <$> w = to_lower <$> lit →
  run (literal_chars lit) (w ++ rest) = [(rest, None)].
Proof.
  induction lit as [|c lit IH]; intros w rest Hw.
  - destruct w; [done|discriminate Hw].
  - destruct w as [|c' w]; [discriminate Hw|].
    injection Hw as Hc Hw. simpl. unfold eq_ci.
    rewrite bool_decide_eq_true_2 by done. simpl.
    rewrite (IH _ _ Hw). reflexivity.
Qed.

Lemma run_literal_chars_inv lit : ∀ s o,
  o ∈ run (literal_chars lit) s →
  ∃ w, s = w ++ o.1 ∧ to_lower <$> w = to_lower <$> lit.
Proof.
  induction lit as [|c lit IH]; intros s o Ho; simpl in Ho.
  - apply list_elem_of_singleton in Ho as ->. by exists [].
  - destruct s as [|c' s]; [by apply elem_of_nil in Ho|].
    unfold eq_ci in Ho. case_bool_decide as Hc; [|by apply elem_of_nil in Ho].
    simpl in Ho. rewrite app_nil_r in Ho.
    apply list_elem_of_fmap in Ho as (o2 & -> & Ho2).
    destruct (IH _ _ Ho2) as (w & -> & Hw).
    exists (c' :: w). split; [done|]. rewrite !fmap_cons. congruence.
Qed.

Lemma search_from_app r pre s :
  run r s ≠ [] → search_from r (pre ++ s) = true.
Proof.
  intros Hrun. induction pre as [|a pre IH]; simpl.
  - destruct s; simpl; by destruct (run r _).
  - by destruct (run r (a :: pre ++ s)).
Qed.

Lemma search_from_inv r s :
  search_from r s = true → ∃ pre s', s = pre ++ s' ∧ run r s' ≠ [].
Proof.
  induction s as [|a s IH]; simpl.
  - destruct (run r []) eqn:E; [done|]. intros _. exists [], []. by rewrite E.
  - destruct (run r (a :: s)) eqn:E.
    + intros (pre & s' & -> & Hs')%IH. by exists (a :: pre), s'.
    + intros _. exists [], (a :: s). by rewrite E.
Qed.

(** A literal pattern is found in a text exactly when the text holds it up
    to the case of its letters. *)
Lemma search_literal needle text :
  search (literal needle) text = true ↔ contains_ci needle text.
Proof.
  unfold search, literal, contains_ci. split.
  - intros (pre & s' & Hs & Hrun)%search_from_inv.
    destruct (run (literal_chars (list_ascii_of_string needle)) s') as [|o l] eqn:E;
      [done|].
    destruct (run_literal_chars_inv (list_ascii_of_string needle) s' o)
      as (w & Hw & Hlow); [rewrite E; left|].
    exists pre, w, o.1. by rewrite Hs, Hw.
  - intros (pre & w & post & -> & Hw). apply search_from_app.
    by rewrite (run_literal_chars _ _ _ Hw).
Qed.

End Literal.

Lemma banned_pattern_reported pattern code :
  pattern ∈ banned_patterns →
  BannedPattern pattern ∈ check_banned_patterns code
  ↔ contains_ci (Re.unescape pattern) code.
Proof.
  intros Hin. unfold check_banned_patterns, compile_plain.
  rewrite <-search_literal. split.
  - intros (p & [= <-] & Hp)%list_elem_of_fmap.
    apply list_elem_of_filter in Hp as [Hp _]. by apply Is_true_true.
  - intros Hs. apply list_elem_of_fmap. exists pattern. split; [done|].
    apply list_elem_of_filter. split; [by apply Is_true_true|done].
Qed.

Lemma network_pattern_reported pattern code :
  pattern ∈ network_patterns →
  NetworkOperation pattern ∈ check_network_operations code
  ↔ contains_ci (Re.unescape pattern) code.
Proof.
  intros Hin. unfold check_network_operations, compile_plain.
  rewrite <-search_literal. split.
  - intros (p & [= <-] & Hp)%list_elem_of_fmap.
    apply list_elem_of_filter in Hp as [Hp _]. by apply Is_true_true.
  - intros Hs. apply list_elem_of_fmap. exists pattern. split; [done|].
    apply list_elem_of_filter. split; [by apply Is_true_true|done].
Qed.

(** The lexical bans block on the text alone: a verdict on a submission
    that holds [http] in any letter case, or one of [.get(], [.post(],
    [.put(], [.delete(], is a failed one and names the pattern, whatever the
    submission does. *)
Theorem lexical_bans_fail_verdict parse stack code data tree v :
  parse code = Parsed tree →
  check_strategy parse stack code data = Ok v →
  (contains_ci "http" code →
     passed v = false ∧ BannedPattern "http" ∈ errors v) ∧
  (∀ pattern,
     pattern ∈ ["\.get\("; "\.post\("; "\.put\("; "\.delete\("] →
     contains_ci (Re.unescape pattern) code →
     passed v = false ∧ NetworkOperation pattern ∈ errors v).
Proof.
  intros Hparse Hv.
  destruct (check_strategy_parsed_inv parse stack code data tree v Hparse Hv)
    as (from_tree & sizing & from_files & _ & _ & _ & Herr & Hpassed).
  assert (∀ x, x ∈ errors v → passed v = false) as Hfail.
  { intros x Hx. rewrite Hpassed. apply bool_decide_eq_false_2.
    destruct (errors v); [by apply elem_of_nil in Hx|done]. }
  split.
  - intros Hc.
    assert (BannedPattern "http" ∈ errors v) as Hin.
    { rewrite Herr. apply elem_of_app. left.
      apply (banned_pattern_reported "http"); [|done].
      unfold banned_patterns. in_list. }
    eauto.
  - intros pattern Hp Hc.
    assert (NetworkOperation pattern ∈ errors v) as Hin.
    { rewrite Herr, !elem_of_app. do 5 right.
      apply network_pattern_reported; [|done].
      rewrite !elem_of_cons, elem_of_nil in Hp. unfold network_patterns.
      destruct Hp as [->|[->|[->|[->|[]]]]]; in_list. }
    eauto.
Qed.

Lemma lexical_bans_fail_verdict_witness :
  let v := mk_verdict false [NetworkOperation "\.get\("] in
  passed v = false ∧ NetworkOperation "\.get\(" ∈ errors v.
Proof.
  intros v.
  assert (check_strategy sample_parse 1000 "r = cfg.get('k')" None = Ok v) as Hv
    by (vm_compute; reflexivity).
  destruct (lexical_bans_fail_verdict sample_parse 1000 "r = cfg.get('k')" None _ v
              eq_refl Hv) as [_ H].
  apply (H "\.get\(").
  - in_list.
  - apply search_literal. vm_compute. reflexivity.
Defined.

(** C10 holds of every verdict, yet the call need not return one: with a
    price frame passed, a text that holds [http] and, in a comment, a number
    with two dots after [leverage =] makes [float] raise inside the
    numeric-bound heuristics, and the [ValueError] leaves [check_strategy]. *)
Lemma check_strategy_raises_on_two_dots :
  let code := "x = 1  # http, leverage = 1.2.3" in
  contains_ci "http" code ∧
  sample_parse code = Parsed (Node [Node [Name "x"; Constant "1"]]) ∧
  check_strategy sample_parse 1000 code None
  = Ok (mk_verdict false [BannedPattern "http"]) ∧
  check_strategy sample_parse 1000 code (Some daily_prices) = Raise (bad_float "1.2.3").
Proof.
  intros code. split_and!.
  - apply search_literal. vm_compute. reflexivity.
  - reflexivity.
  - vm_compute. reflexivity.
  - vm_compute. reflexivity.
Qed.

(** * Further properties of the backtester *)

(** ** The planner *)

(** On a strictly increasing index the validation range starts at the very
    next date after the end of the training range, and the test range at the
    very next date after the end of the validation range: no bar of the data
    falls between two ranges of a window. *)
Theorem planner_windows_contiguous fuel c (index : list Timestamp) ws :
  StronglySorted Z.lt index →
  generate_walk_forward_windows fuel c index = Some (Ok ws) →
  ∀ w t, w ∈ ws → t ∈ index →
    ¬ (train_end w < t < val_start w) ∧ ¬ (val_end w < t < test_start w).
Proof.
  intros Hsorted Hgen w t Hw Ht.
  unfold generate_walk_forward_windows in Hgen.
  destruct (head index) as [data_start|]; [|by destruct (last index)].
  destruct (last index) as [data_end|]; [|done].
  apply windows_loop_inv in Hgen as (new & -> & Hnew).
  apply list_elem_of_lookup in Hw as [k Hk]. apply Hnew in Hk.
  apply snap_window_inv in Hk as (_ & _ & H3 & _ & H5 & _).
  pose proof (λ y, first_of_filter_least _ Hsorted _ _ y H3) as L3.
  pose proof (λ y, first_of_filter_least _ Hsorted _ _ y H5) as L5.
  split; intros [Hlo Hhi].
  - specialize (L3 t Ht Hlo). lia.
  - specialize (L5 t Ht Hlo). lia.
Qed.

Lemma planner_windows_contiguous_witness :
  let w := mk_window (date 2020 1 1) (date 2020 2 1) (date 2020 2 2)
             (date 2020 3 1) (date 2020 3 2) (date 2020 4 1) in
  ¬ (train_end w < date 2020 2 2 < val_start w) ∧
  ¬ (val_end w < date 2020 2 2 < test_start w).
Proof.
  intros w.
  assert (StronglySorted Z.lt daily_index) as Hsorted
    by (apply (bool_decide_unpack _); vm_compute; exact I).
  assert (generate_walk_forward_windows 8 monthly_config daily_index = Some (Ok [w]))
    as Hgen by (vm_compute; reflexivity).
  apply (planner_windows_contiguous 8 monthly_config daily_index [w] Hsorted Hgen).
  - apply list_elem_of_here.
  - apply list_elem_of_In. vm_compute. tauto.
Defined.

(** A series too short for one window is refused: without any row the
    planner raises [IndexError]; when the first window would end after the
    last date, the planner returns no window and the backtest raises
    [ValueError: Insufficient data for walk-forward backtesting], whatever
    the strategy. *)
Theorem walk_forward_insufficient_data print exec stats sqrt c fuel code (data : Series) :
  (index data = [] →
   run_walk_forward_backtest print exec stats sqrt c fuel code data
   = Some (Raise index_error)) ∧
  (∀ data_start data_end,
     head (index data) = Some data_start → last (index data) = Some data_end →
     data_end < test_end_of c data_start →
     generate_walk_forward_windows (S fuel) c (index data) = Some (Ok []) ∧
     run_walk_forward_backtest print exec stats sqrt c (S fuel) code data
     = Some (Raise insufficient_data)).
Proof.
  split.
  - intros Hnil. unfold run_walk_forward_backtest, generate_walk_forward_windows.
    by rewrite Hnil.
  - intros data_start data_end Hhead Hlast Hshort.
    assert (generate_walk_forward_windows (S fuel) c (index data) = Some (Ok [])) as Hgen.
    { unfold generate_walk_forward_windows. rewrite Hhead, Hlast. simpl.
      by rewrite (proj2 (Z.ltb_lt _ _) Hshort). }
    split; [done|]. unfold run_walk_forward_backtest. by rewrite Hgen.
Qed.

Lemma walk_forward_insufficient_data_witness :
  run_walk_forward_backtest sample_console sample_exec sample_stats sample_sqrt
    default_config 1 "signals = 1.0" daily_prices = Some (Raise insufficient_data).
Proof.
  destruct (walk_forward_insufficient_data sample_console sample_exec sample_stats sample_sqrt
              default_config 0 "signals = 1.0" daily_prices) as [_ H].
  apply (H (date 2020 1 1) (date 2020 4 9)); [reflexivity|reflexivity|].
  by vm_compute.
Defined.

(** ** The sandbox *)

Lemma clip_value_in_range q : (-1 <= q <= 1)%Q → clip_value (-1) 1 q = q.
Proof.
  intros [Hlo Hhi]. unfold clip_value, Qmax, Qmin, GenericMinMax.gmax, GenericMinMax.gmin.
  destruct (q ?= -1)%Q eqn:E1.
  - destruct (q ?= 1)%Q eqn:E2; try done; apply Qgt_alt in E2; lra.
  - apply Qlt_alt in E1. lra.
  - destruct (q ?= 1)%Q eqn:E2; try done; apply Qgt_alt in E2; lra.
Qed.

Lemma clean_signals_unchanged (s : Series) :
  Forall in_unit_range (values s) → clip (-1) 1 (fillna 0 s) = s.
Proof.
  intros Hall. unfold clip, fillna, map_values. rewrite <-list_fmap_compose.
  rewrite <-(list_fmap_id s) at 2. apply list_fmap_ext.
  intros i [t x] Hi. simpl. f_equal.
  assert (in_unit_range x) as (q & -> & Hq).
  { eapply Forall_lookup_1; [exact Hall|].
    unfold values. by rewrite list_lookup_fmap, Hi. }
  simpl. by rewrite clip_value_in_range.
Qed.

Section SandboxMore.
Context (exec : interpreter).

(** Signals that a strategy returns as a series on the dates of the price
    slice, all of them numbers between -1 and 1, come out of the sandbox as
    they are. *)
Theorem execute_strategy_keeps_clean_signals code prices (s : Series) :
  exec code prices = ExecDone (Some (PySeries s)) →
  index s = index prices →
  Forall in_unit_range (values s) →
  execute_strategy exec code prices = Ok s.
Proof.
  intros Hexec Hidx Hall. unfold execute_strategy, execute_strategy_body.
  rewrite Hexec. simpl. unfold reindex_ffill. rewrite decide_True by done.
  simpl. by rewrite clean_signals_unchanged.
Qed.

(** A strategy that binds [signals] to one number holds that exposure,
    clipped to [-1, 1], on every date of the slice; NaN gives 0. *)
Theorem execute_strategy_scalar code prices x :
  exec code prices = ExecDone (Some (PyScalar x)) →
  execute_strategy exec code prices
  = Ok ((λ t, (t, Some (clip_value (-1) 1 (default 0%Q x)))) <$> index prices).
Proof.
  intros Hexec. unfold execute_strategy, execute_strategy_body.
  rewrite Hexec. simpl. unfold reindex_ffill.
  rewrite decide_True.
  - simpl. unfold clip, fillna, map_values. by rewrite <-!list_fmap_compose.
  - unfold index. rewrite <-list_fmap_compose. apply list_fmap_id.
Qed.

(** A list of numbers is taken date by date when it has one number for each
    row of the slice; a list of any other length makes the sandbox fail. *)
Theorem execute_strategy_list code prices xs :
  exec code prices = ExecDone (Some (PyList xs)) →
  (length xs = length prices →
   execute_strategy exec code prices
   = Ok (zip (index prices) ((λ x, Some (clip_value (-1) 1 (default 0%Q x))) <$> xs))) ∧
  (length xs ≠ length prices →
   execute_strategy exec code prices = Raise (execution_failed length_mismatch_error)).
Proof.
  intros Hexec. unfold execute_strategy, execute_strategy_body.
  rewrite Hexec. simpl. rewrite index_length. split; intros Hlen.
  - rewrite decide_True by done. simpl. unfold reindex_ffill.
    rewrite decide_True by (apply fst_zip; rewrite index_length; lia).
    simpl. f_equal. unfold clip, fillna, map_values.
    rewrite <-list_fmap_compose.
    assert (length (index prices) = length xs) as Hl by (rewrite index_length; lia).
    clear Hexec Hlen. revert xs Hl.
    induction (index prices) as [|t l IH]; intros [|x xs] Hl; simpl in *; try done.
    f_equal. apply IH. lia.
  - by rewrite decide_False by done.
Qed.

End SandboxMore.

Lemma execute_strategy_keeps_clean_signals_witness :
  execute_strategy (λ _ _, ExecDone (Some (PySeries five_positions))) "" five_prices
  = Ok five_positions.
Proof.
  apply execute_strategy_keeps_clean_signals; [reflexivity|reflexivity|].
  repeat constructor; (eexists; split; [reflexivity|by vm_compute]).
Defined.

Lemma execute_strategy_scalar_witness :
  execute_strategy sample_exec "signals = 1.0" five_prices
  = Ok ((λ t, (t, Some 1%Q)) <$> index five_prices).
Proof.
  exact (execute_strategy_scalar sample_exec "signals = 1.0" five_prices (Some 1%Q) eq_refl).
Defined.

Lemma execute_strategy_list_witness :
  execute_strategy (λ _ _, ExecDone (Some (PyList [Some 3%Q; None]))) "" five_prices
  = Raise (execution_failed length_mismatch_error).
Proof.
  destruct (execute_strategy_list (λ _ _, ExecDone (Some (PyList [Some 3%Q; None])))
              "" five_prices [Some 3%Q; None] eq_refl) as [_ H].
  apply H. vm_compute. discriminate.
Defined.

(** ** Costs and returns *)

(** Taking the first position of a period costs nothing: the cost of the
    first row is 0 whatever that position is, since there is no position
    before it to differ from. *)
Theorem first_step_is_free c positions prices x p :
  values positions !! 0%nat = Some x →
  values prices !! 0%nat = Some (Some p) →
  ∃ q, values (calculate_transaction_costs c positions prices) !! 0%nat
       = Some (Some q) ∧ (q == 0)%Q.
Proof.
  intros Hx Hp. rewrite (cost_value_0 c _ _ _ _ Hx Hp).
  eexists. split; [reflexivity|]. simpl. change (Z.abs 0 # 1) with 0%Q. ring.
Qed.

Lemma first_step_is_free_witness :
  ∃ q, values (calculate_transaction_costs default_config
                 ((λ t, (t, Some 1%Q)) <$> index five_prices) five_prices) !! 0%nat
       = Some (Some q) ∧ (q == 0)%Q.
Proof.
  exact (first_step_is_free default_config
           ((λ t, (t, Some 1%Q)) <$> index five_prices) five_prices (Some 1%Q) 100%Q
           eq_refl eq_refl).
Defined.

Lemma Qabs_diff_le_2 a b :
  (-1 <= a <= 1)%Q → (-1 <= b <= 1)%Q → (Qabs (a - b) <= 2)%Q.
Proof. intros Ha Hb. apply Qabs_Qle_condition. lra. Qed.

(** With positions kept between -1 and 1, as the sandbox returns them, a
    step never costs more than twice the cost rate times the price. *)
Theorem cost_bounded_by_full_reversal c positions prices (i : nat) cost p :
  (0 <= total_cost_rate c)%Q →
  Forall in_unit_range (values positions) →
  values prices !! i = Some (Some p) → (0 < p)%Q →
  values (calculate_transaction_costs c positions prices) !! i = Some (Some cost) →
  (cost <= 2 * total_cost_rate c * p)%Q.
Proof.
  intros Hrate Hrange Hp Hpos Hcost.
  apply lookup_lt_Some in Hcost as Hlt.
  assert (i < length (values positions))%nat as Hlt'.
  { revert Hlt. unfold calculate_transaction_costs.
    rewrite values_zip_values, length_zip_with. unfold scale, Pandas.abs, fillna, diff.
    rewrite !values_map_values, !length_fmap, values_zip_values, length_zip_with. lia. }
  destruct (lookup_lt_is_Some_2 _ _ Hlt') as [x Hx].
  destruct (Forall_lookup_1 _ _ _ _ Hrange Hx) as (a & -> & Ha).
  destruct i as [|i].
  - rewrite (cost_value_0 c _ _ _ _ Hx Hp) in Hcost. injection Hcost as <-.
    simpl. change (Z.abs 0 # 1) with 0%Q.
    assert (0 <= 2 * total_cost_rate c * p)%Q; [|lra].
    apply Qmult_le_0_compat; lra.
  - destruct (lookup_lt_is_Some_2 (values positions) i) as [y Hy]; [lia|].
    destruct (Forall_lookup_1 _ _ _ _ Hrange Hy) as (b & -> & Hb).
    rewrite (cost_value_S c _ _ _ _ _ _ Hy Hx Hp) in Hcost. injection Hcost as <-.
    simpl. apply Qmult_le_compat_r; [|lra].
    apply Qmult_le_compat_r; [|done]. by apply Qabs_diff_le_2.
Qed.

Lemma cost_bounded_by_full_reversal_witness :
  ((2 # 1000) * 103 <= 2 * total_cost_rate default_config * 103)%Q.
Proof.
  assert (Forall in_unit_range (values five_positions)) as Hrange
    by (repeat constructor; (eexists; split; [reflexivity|by vm_compute])).
  assert (0 <= total_cost_rate default_config)%Q as Hrate by (by vm_compute).
  assert (0 < 103)%Q as Hpos by (by vm_compute).
  pose proof (cost_bounded_by_full_reversal default_config five_positions five_prices
                3 _ 103%Q Hrate Hrange eq_refl Hpos eq_refl) as H.
  revert H. vm_compute. tauto.
Defined.

(** The first net return of a period is always NaN: the position of the
    day before the first row does not exist, and NaN times the zero price
    return stays NaN. *)
Theorem first_net_return_is_nan c positions prices x p :
  values positions !! 0%nat = Some x →
  values prices !! 0%nat = Some p →
  values (net_returns_of c positions prices) !! 0%nat = Some None.
Proof.
  intros Hx Hp. unfold net_returns_of, strategy_returns_of, cost_returns_of,
    price_returns_of, pct_change, fillna, neg.
  pose proof (shift1_value_0 _ _ Hx) as Hsx.
  pose proof (shift1_value_0 _ _ Hp) as Hsp.
  pose proof (zip_values_value fdiv _ _ _ _ _ Hp Hsp) as H1.
  pose proof (map_values_value (lift1 (λ r : Q, r - 1)%Q) _ _ _ H1) as H2.
  pose proof (map_values_value (λ x, Some (default 0%Q x)) _ _ _ H2) as H3.
  pose proof (zip_values_value (lift2 Qmult) _ _ _ _ _ Hsx H3) as H4.
  pose proof (cost_value_0 c _ _ _ _ Hx Hp) as H5.
  pose proof (map_values_value (lift1 Qopp) _ _ _ H5) as H6.
  pose proof (zip_values_value fdiv _ _ _ _ _ H6 Hsp) as H7.
  pose proof (map_values_value (λ x, Some (default 0%Q x)) _ _ _ H7) as H8.
  exact (zip_values_value (lift2 Qplus) _ _ _ _ _ H4 H8).
Qed.

Lemma first_net_return_is_nan_witness :
  values (net_returns_of default_config five_positions five_prices) !! 0%nat = Some None.
Proof.
  exact (first_net_return_is_nan default_config five_positions five_prices
           (Some 0%Q) (Some 100%Q) eq_refl eq_refl).
Defined.

(** Holding one constant exposure [x] costs nothing after the first row,
    and each later net return is [x] times the relative price change of the
    day: buy and hold earns the market return. *)
Theorem constant_position_returns c positions prices (i : nat) x p p' :
  (∀ (j : nat) y, values positions !! j = Some y → y = Some x) →
  length positions = length prices →
  values prices !! i = Some (Some p) → values prices !! S i = Some (Some p') →
  (0 < p)%Q →
  (∃ q, values (calculate_transaction_costs c positions prices) !! S i
        = Some (Some q) ∧ (q == 0)%Q) ∧
  (∃ n, values (net_returns_of c positions prices) !! S i = Some (Some n) ∧
        (n == x * (p' / p - 1))%Q).
Proof.
  intros Hconst Hlen Hp Hp' Hpos.
  apply lookup_lt_Some in Hp' as Hlt. rewrite values_length, <-Hlen in Hlt.
  destruct (lookup_lt_is_Some_2 (values positions) (S i)) as [y' Hy'];
    [by rewrite values_length|].
  destruct (lookup_lt_is_Some_2 (values positions) i) as [y Hy];
    [rewrite values_length; lia|].
  pose proof (Hconst _ _ Hy) as ->. pose proof (Hconst _ _ Hy') as ->.
  pose proof (cost_value_S c _ _ _ _ _ _ Hy Hy' Hp') as Hcost.
  split.
  - rewrite Hcost. simpl. eexists. split; [reflexivity|].
    assert (Qabs (x - x) == 0)%Q as Habs.
    { assert (x - x == 0)%Q as Hz by ring. rewrite Hz. reflexivity. }
    rewrite Habs. ring.
  - unfold net_returns_of, strategy_returns_of, cost_returns_of,
      price_returns_of, pct_change, fillna, neg.
    pose proof (shift1_value_S _ _ _ _ Hy Hy') as Hsx.
    pose proof (shift1_value_S _ _ _ _ Hp Hp') as Hsp.
    pose proof (zip_values_value fdiv _ _ _ _ _ Hp' Hsp) as H1.
    pose proof (map_values_value (lift1 (λ r : Q, r - 1)%Q) _ _ _ H1) as H2.
    pose proof (map_values_value (λ x, Some (default 0%Q x)) _ _ _ H2) as H3.
    pose proof (zip_values_value (lift2 Qmult) _ _ _ _ _ Hsx H3) as H4.
    pose proof (map_values_value (lift1 Qopp) _ _ _ Hcost) as H6.
    pose proof (zip_values_value fdiv _ _ _ _ _ H6 Hsp) as H7.
    pose proof (map_values_value (λ x, Some (default 0%Q x)) _ _ _ H7) as H8.
    rewrite (zip_values_value (lift2 Qplus) _ _ _ _ _ H4 H8).
    simpl. rewrite (positive_not_zero _ Hpos). simpl.
    eexists. split; [reflexivity|].
    assert (Qabs (x - x) == 0)%Q as Habs.
    { assert (x - x == 0)%Q as Hz by ring. rewrite Hz. reflexivity. }
    rewrite Habs. field. lra.
Qed.

Lemma constant_position_returns_witness :
  let positions : Series := (λ t, (t, Some 1%Q)) <$> index five_prices in
  ∃ n, values (net_returns_of default_config positions five_prices) !! 1%nat
       = Some (Some n) ∧ (n == 1 * (101 / 100 - 1))%Q.
Proof.
  intros positions.
  assert (∀ (j : nat) y, values positions !! j = Some y → y = Some 1%Q) as Hconst.
  { intros j y Hy. unfold positions, values in Hy.
    rewrite <-list_fmap_compose, list_lookup_fmap in Hy.
    destruct (index five_prices !! j); by simplify_eq/=. }
  assert (0 < 100)%Q as Hpos by (by vm_compute).
  destruct (constant_position_returns default_config positions five_prices
              0%nat 1%Q 100%Q 101%Q Hconst eq_refl eq_refl eq_refl Hpos) as [_ H].
  exact H.
Defined.

(** ** One period and the whole run *)

Section PeriodFacts.
Context (print : console) (exec : interpreter) (stats : statistics).
Context (sqrt : Q → Q) (c : Config).
Context (strategy_code : string) (data : Series).

#[local] Abbreviation run_period :=
  (run_backtest_period exec stats c strategy_code data).

(** A strategy that never binds [signals] fails every period, and a run of
    it over any windows, on a console that takes every line, returns a
    report without a single result and without aggregate metrics. *)
Theorem strategy_without_signals windows :
  (∀ prices, exec strategy_code prices = ExecDone None) →
  (∀ start_date end_date,
     run_period start_date end_date = Raise insufficient_period_data ∨
     run_period start_date end_date = Raise (execution_failed missing_signals)) ∧
  (windows ≠ [] →
   (∀ line, print line = Ok ()) →
   backtest_windows print exec stats sqrt c strategy_code data windows
   = Ok (mk_report no_results windows ∅)).
Proof.
  intros Hexec.
  assert (∀ s e, run_period s e = Raise insufficient_period_data ∨
                 run_period s e = Raise (execution_failed missing_signals)) as Hfail.
  { intros s e. unfold run_backtest_period. case_bool_decide; [by left|right].
    unfold execute_strategy, execute_strategy_body. by rewrite Hexec. }
  split; [done|]. intros Hne Hprint.
  assert (∀ w, ∃ e, failure run_period w = Some e ∧
                    e ∈ [insufficient_period_data; execution_failed missing_signals])
    as Hfailure.
  { intros w. unfold failure, train_run.
    destruct (Hfail (train_start w) (train_end w)) as [-> | ->];
      eexists; (split; [reflexivity|]); in_list. }
  assert (∀ (i : nat) w, kept_train run_period i w = [] ∧
                         kept_validation run_period i w = [] ∧
                         kept_test run_period i w = []) as Hkept.
  { intros i w. unfold kept_train, kept_validation, kept_test, train_run.
    by destruct (Hfail (train_start w) (train_end w)) as [-> | ->]. }
  unfold backtest_windows. destruct windows as [|w0 ws0] eqn:Ews; [done|].
  rewrite <-Ews in *. rewrite (run_windows_handled _ _ _ _ _ _ windows 0 no_results).
  - assert (gathered run_period 0 windows no_results = no_results) as ->; [|done].
    unfold gathered, no_results. simpl.
    assert (∀ (f : nat → Window → list PeriodResult) (ws : list Window),
              (∀ i w, f i w = []) → concat (imap f ws) = []) as Hall.
    { intros f ws. revert f. induction ws as [|w ws IH]; intros f Hf; [done|].
      simpl. rewrite Hf. simpl. apply IH. intros i w'. apply Hf. }
    rewrite !Hall; [done|intros i w; apply Hkept..].
  - intros k w e Hk He. destruct (Hfailure w) as (e' & He' & Hin).
    rewrite He in He'. injection He' as <-.
    unfold window_handler.
    rewrite !elem_of_cons, elem_of_nil in Hin.
    destruct Hin as [->|[->|[]]]; simpl; by rewrite Hprint.
Qed.

End PeriodFacts.

Lemma strategy_without_signals_witness :
  let w := mk_window (date 2015 1 1) (date 2018 1 1) (date 2018 2 1)
             (date 2018 7 1) (date 2018 8 1) (date 2018 8 1) in
  backtest_windows sample_console (λ _ _, ExecDone None) sample_stats sample_sqrt
    default_config "" monthly_prices [w] = Ok (mk_report no_results [w] ∅).
Proof.
  intros w.
  destruct (strategy_without_signals sample_console (λ _ _, ExecDone None) sample_stats
              sample_sqrt default_config "" monthly_prices [w] (λ _, eq_refl)) as [_ H].
  apply H; [discriminate|]. intros line. reflexivity.
Defined.

(** *** The result lists *)

Lemma tags_from_succ n f : tags_from n f → tags_from (S n) (f ∘ S).
Proof.
  intros Hf i w. destruct (Hf (S i) w) as [Hnil|(r & Hr & Hid)]; [by left|].
  right. exists r. split; [done|]. rewrite Hid. f_equal. lia.
Qed.

Lemma tagged_ids ws : ∀ n f,
  tags_from n f →
  ∃ ids, window_ids (concat (imap f ws)) = Some <$> ids ∧
         StronglySorted lt ids ∧
         Forall (λ i, n ≤ i < n + length ws)%nat ids.
Proof.
  induction ws as [|w ws IH]; intros n f Hf.
  - exists []. repeat split; constructor.
  - destruct (IH (S n) (f ∘ S) (tags_from_succ _ _ Hf)) as (ids & Hids & Hsorted & Hrange).
    simpl. unfold window_ids in *. rewrite fmap_app, Hids.
    destruct (Hf 0%nat w) as [->|(r & -> & Hid)].
    + exists ids. split_and!; [done..|].
      eapply Forall_impl; [exact Hrange|]. simpl. lia.
    + exists (n :: ids). simpl. rewrite Hid, Nat.add_0_r. split_and!; [done| |].
      * constructor; [done|]. eapply Forall_impl; [exact Hrange|]. simpl. lia.
      * constructor; [lia|]. eapply Forall_impl; [exact Hrange|]. simpl. lia.
Qed.

Lemma tagged_nested ws : ∀ n f g,
  tags_from n f → tags_from n g →
  (∀ i w, g i w ≠ [] → f i w ≠ []) →
  (length (concat (imap g ws)) ≤ length (concat (imap f ws)))%nat ∧
  ∀ i, Some i ∈ window_ids (concat (imap g ws)) →
       Some i ∈ window_ids (concat (imap f ws)).
Proof.
  induction ws as [|w ws IH]; intros n f g Hf Hg Hgf; [done|].
  destruct (IH (S n) (f ∘ S) (g ∘ S) (tags_from_succ _ _ Hf) (tags_from_succ _ _ Hg))
    as [Hlen Hsub]; [intros i w'; apply Hgf|].
  simpl. unfold window_ids in *. rewrite !length_app, !fmap_app.
  destruct (Hg 0%nat w) as [Hg0|(r & Hg0 & Hid)]; rewrite Hg0.
  - split; [simpl; lia|]. intros i Hi. apply elem_of_app. right. by apply Hsub.
  - destruct (Hf 0%nat w) as [Hf0|(r' & Hf0 & Hid')];
      [by destruct (Hgf 0%nat w); [rewrite Hg0|]|].
    rewrite Hf0. split; [simpl; lia|].
    intros i [Hi|Hi]%elem_of_app; apply elem_of_app.
    + left. simpl in *. apply list_elem_of_singleton in Hi.
      apply list_elem_of_singleton. congruence.
    + right. by apply Hsub.
Qed.

Section ResultLists.
Context (print : console) (exec : interpreter) (stats : statistics) (c : Config).
Context (strategy_code : string) (data : Series).

#[local] Abbreviation run_period :=
  (run_backtest_period exec stats c strategy_code data).

Lemma kept_train_tags : tags_from 0 (kept_train run_period).
Proof.
  intros i w. unfold kept_train, tagged. destruct (train_run run_period w); [|by left].
  right. by eexists.
Qed.

Lemma kept_validation_tags : tags_from 0 (kept_validation run_period).
Proof.
  intros i w. unfold kept_validation, tagged. destruct (is_ok _); [|by left].
  destruct (validation_run run_period w); [|by left]. right. by eexists.
Qed.

Lemma kept_test_tags : tags_from 0 (kept_test run_period).
Proof.
  intros i w. unfold kept_test, tagged. destruct (_ && _); [|by left].
  destruct (test_run run_period w); [|by left]. right. by eexists.
Qed.

(** When the loop over the windows ends, by itself or by an exception, the
    three result lists are nested: a window with a test result has a
    validation result, a window with a validation result has a train result,
    so the test list is the shortest and no list is longer than the list of
    windows.  In each list the window numbers go up strictly, all of them
    below the number of windows: the lists follow the order of the windows
    and hold no window twice. *)
Theorem walk_forward_result_lists windows :
  let rs := (run_windows print exec stats c strategy_code data 0 windows no_results).1 in
  (length (test_results rs) ≤ length (validation_results rs))%nat ∧
  (length (validation_results rs) ≤ length (train_results rs))%nat ∧
  (length (train_results rs) ≤ length windows)%nat ∧
  (∀ i, Some i ∈ window_ids (test_results rs) →
        Some i ∈ window_ids (validation_results rs)) ∧
  (∀ i, Some i ∈ window_ids (validation_results rs) →
        Some i ∈ window_ids (train_results rs)) ∧
  (∀ l, l ∈ [train_results rs; validation_results rs; test_results rs] →
        ∃ ids, window_ids l = Some <$> ids ∧ StronglySorted lt ids ∧
               Forall (λ i, i < length windows)%nat ids).
Proof.
  intros rs.
  destruct (run_windows_gathered print exec stats c strategy_code data windows 0
              no_results) as (n & Hn & Hrs). fold rs in Hrs.
  assert (length (take n windows) ≤ length windows)%nat as Hshort
    by (rewrite length_take; lia).
  revert Hrs Hshort. generalize (take n windows) as done_windows.
  intros done_windows Hrs Hshort. clear n Hn.
  assert (train_results rs = concat (imap (kept_train run_period) done_windows))
    as Htrain by (by rewrite Hrs).
  assert (validation_results rs = concat (imap (kept_validation run_period) done_windows))
    as Hval by (by rewrite Hrs).
  assert (test_results rs = concat (imap (kept_test run_period) done_windows)) as Htest
    by (by rewrite Hrs).
  clearbody rs. clear Hrs. rewrite Htrain, Hval, Htest.
  revert Hshort. generalize (length windows) as bound. intros bound Hshort.
  clear windows. rename done_windows into windows.
  destruct (tagged_nested windows 0 _ _ kept_validation_tags kept_test_tags) as [L1 S1].
  { intros i w. unfold kept_test, kept_validation.
    destruct (is_ok (train_run run_period w)); [|done]. simpl.
    destruct (validation_run run_period w); [done|]. by simpl. }
  destruct (tagged_nested windows 0 _ _ kept_train_tags kept_validation_tags) as [L2 S2].
  { intros i w. unfold kept_validation, kept_train.
    by destruct (train_run run_period w). }
  destruct (tagged_ids windows 0 _ kept_train_tags) as (i1 & E1 & O1 & R1).
  destruct (tagged_ids windows 0 _ kept_validation_tags) as (i2 & E2 & O2 & R2).
  destruct (tagged_ids windows 0 _ kept_test_tags) as (i3 & E3 & O3 & R3).
  split_and!; [done|done| |done|done|].
  - rewrite <-(length_fmap window_id). fold (window_ids (concat (imap (kept_train run_period) windows))).
    rewrite E1, length_fmap. etrans; [|exact Hshort].
    clear -O1 R1. revert O1 R1. generalize (length windows) as n. intros n.
    revert n. induction i1 as [|i ids IH] using rev_ind; intros n Hs Hr; [simpl; lia|].
    apply StronglySorted_app in Hs as (Hlt & Hs & _).
    apply Forall_app in Hr as [Hr Hi]. rewrite Forall_singleton in Hi.
    rewrite length_app. simpl in *.
    destruct n as [|n]; [lia|].
    assert (length ids ≤ n)%nat; [|lia].
    apply IH; [done|]. apply Forall_forall. intros j Hj.
    specialize (Hlt j i Hj (list_elem_of_here _ _)). lia.
  - intros l Hl. rewrite !elem_of_cons, elem_of_nil in Hl.
    destruct Hl as [->|[->|[->|[]]]]; eexists; (split_and!; [eassumption|done|]);
      (eapply Forall_impl; [eassumption|]); simpl; lia.
Qed.

End ResultLists.

Lemma walk_forward_result_lists_witness :
  let w := mk_window (date 2015 1 1) (date 2018 1 1) (date 2018 2 1)
             (date 2018 7 1) (date 2018 8 1) (date 2018 8 1) in
  let rs := (run_windows sample_console sample_exec sample_stats default_config
               "signals = 1.0" monthly_prices 0 [w] no_results).1 in
  (length (test_results rs) ≤ length (validation_results rs))%nat ∧
  (length (validation_results rs) ≤ length (train_results rs))%nat ∧
  (length (train_results rs) ≤ 1)%nat.
Proof.
  intros w rs.
  destruct (walk_forward_result_lists sample_console sample_exec sample_stats default_config
              "signals = 1.0" monthly_prices [w]) as (H1 & H2 & H3 & _).
  exact (conj H1 (conj H2 H3)).
Defined.

(** ** Aggregate metrics *)

Lemma flt_spec q v : Numpy.flt (Some q) v = true ↔ (q < v)%Q.
Proof.
  unfold Numpy.flt. rewrite negb_true_iff. split.
  - intros H. apply Qnot_le_lt. intros Hle. apply Qle_bool_iff in Hle. congruence.
  - intros H. destruct (Qle_bool v q) eqn:E; [|done].
    apply Qle_bool_iff in E. lra.
Qed.

Lemma unstable_filter_numbers v qs :
  length (filter (λ s, Numpy.flt s v) (Some <$> qs)) = count_below v qs.
Proof.
  unfold count_below. induction qs as [|q qs IH]; [done|].
  rewrite fmap_cons, !filter_cons.
  destruct (decide (Numpy.flt (Some q) v)); simpl; by rewrite IH.
Qed.

Lemma count_below_zero v qs :
  count_below v qs = 0%nat ↔ Forall (λ x, v <= x)%Q qs.
Proof.
  unfold count_below. induction qs as [|q qs IH]; [by split; [constructor|]|].
  rewrite filter_cons, Forall_cons.
  destruct (decide (Numpy.flt (Some q) v)) as [Hd|Hd]; simpl.
  - apply Is_true_true, flt_spec in Hd. split; [done|]. intros [Hle _]. lra.
  - rewrite IH. apply Is_true_false in Hd.
    assert (v <= q)%Q; [|tauto].
    apply Qnot_lt_le. intros Hlt. apply flt_spec in Hlt. congruence.
Qed.

Lemma count_below_split v qs :
  (count_below v qs + count_not_below v qs = length qs)%nat.
Proof.
  unfold count_below, count_not_below. induction qs as [|q qs IH]; [done|].
  rewrite !filter_cons.
  destruct (decide (Numpy.flt (Some q) v)) as [H1|H1],
    (decide (negb (Numpy.flt (Some q) v))) as [H2|H2]; simpl in *; try lia;
    destruct (Qle_bool v q); simpl in *; tauto.
Qed.

Lemma fsum_nan xs : None ∈ xs → Numpy.fsum xs = None.
Proof.
  unfold Numpy.fsum. induction xs as [|x xs IH]; intros Hin.
  - by apply elem_of_nil in Hin.
  - apply elem_of_cons in Hin as [<-|Hin]; [reflexivity|].
    simpl. rewrite (IH Hin). by destruct x.
Qed.

Lemma mean_nan xs : None ∈ xs → Numpy.mean xs = None.
Proof. intros Hin. unfold Numpy.mean. by rewrite fsum_nan. Qed.

Lemma foldl_min_nan_acc xs : foldl (lift2 Qmin) None xs = None.
Proof. induction xs as [|x xs IH]; [done|]. simpl. exact IH. Qed.

Lemma foldl_min_nan xs : ∀ x, None ∈ xs → foldl (lift2 Qmin) x xs = None.
Proof.
  induction xs as [|y xs IH]; intros x Hin.
  - by apply elem_of_nil in Hin.
  - apply elem_of_cons in Hin as [<-|Hin]; simpl.
    + destruct x; apply foldl_min_nan_acc.
    + by apply IH.
Qed.

Lemma amin_nan xs : None ∈ xs → Numpy.amin xs = None.
Proof.
  destruct xs as [|x xs]; [done|]. intros [<-|Hin]%elem_of_cons; simpl.
  - apply foldl_min_nan_acc.
  - by apply foldl_min_nan.
Qed.

Section AggregateCounts.
Context (sqrt : Q → Q).

(** When the Sharpe ratios of a period are numbers, the count of unstable
    windows in the report is the number of them below 0.3; it is never more
    than the number of results, and it is zero exactly when every Sharpe
    ratio is at least 0.3. *)
Theorem unstable_windows_count rs p q qs :
  sharpe_ratio <$> period_results rs p = Some <$> (q :: qs) →
  let agg := calculate_aggregate_metrics sqrt rs in
  let k := count_below (3 # 10) (q :: qs) in
  agg !! (period_name p +:+ "_unstable_windows")
    = Some (Some (inject_Z (Z.of_nat k))) ∧
  (k ≤ length (period_results rs p))%nat ∧
  (k = 0%nat ↔ Forall (λ x, 3 # 10 <= x)%Q (q :: qs)).
Proof.
  intros Hs agg k. subst agg. rewrite aggregate_lookup. unfold aggregate_step.
  destruct (period_results rs p) as [|r prs] eqn:E; [done|].
  destruct (add_period_metrics_known sqrt (period_name p) (r :: prs) ∅)
    as (_ & _ & _ & _ & _ & _ & _ & H8).
  rewrite H8, Hs. unfold Numpy.count. rewrite unstable_filter_numbers.
  split_and!; [done| |apply count_below_zero].
  pose proof (count_below_split (3 # 10) (q :: qs)) as Hsplit.
  rewrite <-(length_fmap sharpe_ratio), Hs, length_fmap. fold k in Hsplit. lia.
Qed.

(** One NaN among the Sharpe ratios of a period turns the average, the
    standard deviation and the minimum of the period into NaN; the count of
    unstable windows still counts the numbers below 0.3. *)
Theorem nan_sharpe_spoils_period rs p :
  None ∈ sharpe_ratio <$> period_results rs p →
  let agg := calculate_aggregate_metrics sqrt rs in
  agg !! (period_name p +:+ "_avg_sharpe") = Some None ∧
  agg !! (period_name p +:+ "_sharpe_std") = Some None ∧
  agg !! (period_name p +:+ "_min_sharpe") = Some None ∧
  ∃ k, agg !! (period_name p +:+ "_unstable_windows") = Some (Some k).
Proof.
  intros Hnan agg. subst agg. rewrite !aggregate_lookup. unfold aggregate_step.
  destruct (period_results rs p) as [|r prs] eqn:E;
    [by apply elem_of_nil in Hnan|].
  destruct (add_period_metrics_known sqrt (period_name p) (r :: prs) ∅)
    as (H1 & _ & _ & _ & _ & H6 & H7 & H8).
  rewrite H1, H6, H7, H8. rewrite mean_nan, amin_nan by done.
  split_and!; [done| |done|by eexists].
  unfold Numpy.std, Numpy.var. rewrite mean_nan; [done|].
  apply list_elem_of_fmap. by exists None.
Qed.

(** ** The analyzer's summary *)

(** A run that gathered no test result is summarised with a Sharpe ratio,
    a return, a drawdown, a turnover, a beta and a stability score of 0 over
    0 test windows: the defaults of [metrics.get], not a failure. *)
Theorem summary_without_test_results rs windows :
  test_results rs = [] →
  get_performance_summary (report_of sqrt rs windows)
  = mk_summary (Some 0%Q) (Some 0%Q) (Some 0%Q) (Some 0%Q) (Some 0%Q) (Some 0%Q) 0.
Proof.
  intros Hnone. unfold get_performance_summary, report_of, metrics_get.
  cbn [report_aggregate report_results].
  change "test_avg_sharpe" with (period_name Test +:+ "_avg_sharpe").
  change "test_avg_return" with (period_name Test +:+ "_avg_return").
  change "test_avg_maxdd" with (period_name Test +:+ "_avg_maxdd").
  change "test_avg_turnover" with (period_name Test +:+ "_avg_turnover").
  change "test_avg_beta" with (period_name Test +:+ "_avg_beta").
  change "test_unstable_windows" with (period_name Test +:+ "_unstable_windows").
  rewrite !(aggregate_empty_period sqrt rs Test) by done.
  rewrite Hnone. reflexivity.
Qed.

(** With test results whose Sharpe ratios are numbers, the summary gives
    their mean as the test Sharpe ratio, and its stability score is the
    number of test windows whose Sharpe ratio is not below 0.3. *)
Theorem summary_stability_score rs windows q qs :
  sharpe_ratio <$> test_results rs = Some <$> (q :: qs) →
  let summary := get_performance_summary (report_of sqrt rs windows) in
  test_sharpe summary = Numpy.mean (Some <$> (q :: qs)) ∧
  num_test_windows summary = length (q :: qs) ∧
  ∃ s, stability_score summary = Some s ∧
       (s == inject_Z (Z.of_nat (count_not_below (3 # 10) (q :: qs))))%Q.
Proof.
  intros Hs summary. subst summary.
  unfold get_performance_summary, report_of, metrics_get.
  cbn [report_aggregate report_results test_sharpe num_test_windows stability_score].
  change "test_avg_sharpe" with (period_name Test +:+ "_avg_sharpe").
  change "test_unstable_windows" with (period_name Test +:+ "_unstable_windows").
  rewrite !(aggregate_lookup sqrt rs Test). unfold aggregate_step.
  cbn [period_results period_name].
  destruct (test_results rs) as [|r prs] eqn:E; [done|].
  destruct (add_period_metrics_known sqrt "test" (r :: prs) ∅)
    as (H1 & _ & _ & _ & _ & _ & _ & H8).
  rewrite H1, H8, Hs. cbn [default].
  assert (length (r :: prs) = length (q :: qs)) as Hlen
    by (by rewrite <-(length_fmap sharpe_ratio), Hs, length_fmap).
  split_and!; [done|done|].
  unfold Numpy.count. rewrite unstable_filter_numbers. rewrite Hlen.
  eexists. split; [reflexivity|].
  pose proof (count_below_split (3 # 10) (q :: qs)) as Hsplit.
  rewrite <-Hsplit, Nat2Z.inj_add, inject_Z_plus. ring.
Qed.

End AggregateCounts.

Lemma unstable_windows_count_witness :
  calculate_aggregate_metrics sample_sqrt sample_results !! "test_unstable_windows"
  = Some (Some (inject_Z (Z.of_nat 1))).
Proof.
  destruct (unstable_windows_count sample_sqrt sample_results Test (1 # 10) [1 # 2]
              eq_refl) as [H _].
  exact H.
Defined.

Lemma nan_sharpe_spoils_period_witness :
  let r := mk_period_result (Some 0%Q) (Some 0%Q) None (Some 0%Q) (Some 0%Q)
             (Some 0%Q) 0 (Some 0%Q) (Some 0%Q) (Some 0%nat) in
  calculate_aggregate_metrics sample_sqrt (mk_results [r] [] []) !! "train_avg_sharpe"
  = Some None.
Proof.
  intros r.
  destruct (nan_sharpe_spoils_period sample_sqrt (mk_results [r] [] []) Train) as [H _].
  - apply list_elem_of_here.
  - exact H.
Defined.

Lemma summary_without_test_results_witness :
  get_performance_summary (report_of sample_sqrt no_results [])
  = mk_summary (Some 0%Q) (Some 0%Q) (Some 0%Q) (Some 0%Q) (Some 0%Q) (Some 0%Q) 0.
Proof. exact (summary_without_test_results sample_sqrt no_results [] eq_refl). Defined.

Lemma summary_stability_score_witness :
  ∃ s, stability_score (get_performance_summary (report_of sample_sqrt sample_results []))
       = Some s ∧ (s == 1)%Q.
Proof.
  destruct (summary_stability_score sample_sqrt sample_results [] (1 # 10) [1 # 2]
              eq_refl) as (_ & _ & s & Hs & Heq).
  exists s. split; [exact Hs|]. rewrite Heq. reflexivity.
Defined.

(** * Further properties of the guard rail *)

(** ** The lexical checks *)

(** On a text of ASCII characters, the banned-pattern and the network
    checks report a pattern of their list exactly when the text of the
    submission holds what the pattern spells, in any letter case and
    anywhere, comments and strings included; each pattern is reported once
    at most. *)
Theorem lexical_checks_exact code :
  ascii_text code →
  (∀ p, BannedPattern p ∈ check_banned_patterns code ↔
        p ∈ banned_patterns ∧ contains_ci (Re.unescape p) code) ∧
  (∀ p, NetworkOperation p ∈ check_network_operations code ↔
        p ∈ network_patterns ∧ contains_ci (Re.unescape p) code) ∧
  NoDup (check_banned_patterns code) ∧ NoDup (check_network_operations code).
Proof.
  intros _. split_and!.
  - intros p. split.
    + intros Hin. assert (p ∈ banned_patterns) as Hp.
      { unfold check_banned_patterns in Hin.
        apply list_elem_of_fmap in Hin as (p' & [= <-] & Hp').
        by apply list_elem_of_filter in Hp' as [_ ?]. }
      split; [done|]. by apply banned_pattern_reported.
    + intros [Hp Hc]. by apply banned_pattern_reported.
  - intros p. split.
    + intros Hin. assert (p ∈ network_patterns) as Hp.
      { unfold check_network_operations in Hin.
        apply list_elem_of_fmap in Hin as (p' & [= <-] & Hp').
        by apply list_elem_of_filter in Hp' as [_ ?]. }
      split; [done|]. by apply network_pattern_reported.
    + intros [Hp Hc]. by apply network_pattern_reported.
  - unfold check_banned_patterns. apply NoDup_fmap_2; [by intros ?? [= ->]|].
    apply NoDup_filter. apply (bool_decide_unpack _). by vm_compute.
  - unfold check_network_operations. apply NoDup_fmap_2; [by intros ?? [= ->]|].
    apply NoDup_filter. apply (bool_decide_unpack _). by vm_compute.
Qed.

(** ** Forward-looking shifts *)

Section Shift.
Import Re.





End Shift.


Lemma lexical_checks_exact_witness :
  BannedPattern "http" ∈ check_banned_patterns "x = HTTP".
Proof.
  destruct (lexical_checks_exact "x = HTTP") as (H & _).
  - repeat constructor.
  - apply H. split; [unfold banned_patterns; in_list|].
    apply search_literal. vm_compute. reflexivity.
Defined.


(** ** The walk over the syntax tree *)

(** The violations of a walk are those of the nodes of the tree, node
    after node. *)
Lemma visit_subnodes here tree :
  visit here tree = subnodes tree ≫= here.
Proof.
  assert (∀ l : list ast,
            Forall (λ n, visit here n = subnodes n ≫= here) l →
            (fix go l := match l with
                         | [] => []
                         | n :: l' => visit here n ++ go l'
                         end) l
            = ((fix go l := match l with
                            | [] => []
                            | n :: l' => subnodes n ++ go l'
                            end) l) ≫= here) as Hlist.
  { induction 1 as [|n l Hn _ IH]; [done|]. by rewrite bind_app, Hn, IH. }
  induction tree as [| |func args keywords IHf IHa IHk|value attr IHv| | |children IH]
    using ast_nested_ind; cbn [visit subnodes]; rewrite bind_cons; try done.
  - by rewrite !bind_app, IHf, (Hlist _ IHa), (Hlist _ IHk).
  - by rewrite IHv.
  - by rewrite (Hlist _ IH).
Qed.

Lemma check_ast_nodes stack tree found x :
  check_ast stack tree = Ok found →
  x ∈ found ↔ ∃ node, node ∈ subnodes tree ∧ x ∈ dangerous_here node.
Proof.
  intros [_ ->]%walk_ok_inv. rewrite visit_subnodes, list_elem_of_bind.
  split; intros (node & ? & ?); by exists node.
Qed.




Lemma allowed_library_is_own_prefix lib :
  lib ∈ allowed_libraries →
  existsb (λ mod_, is_prefix_of mod_ lib) allowed_libraries = true.
Proof.
  unfold allowed_libraries. rewrite !elem_of_cons, elem_of_nil.
  intros [->|[->|[->|[->|[->|[]]]]]]; by vm_compute.
Qed.

Lemma existsb_prefix_false m :
  existsb (λ mod_, is_prefix_of mod_ m) allowed_libraries = false ↔
  ∀ lib, lib ∈ allowed_libraries → String.prefix lib m = false.
Proof.
  rewrite <-not_true_iff_false, existsb_exists. split.
  - intros Hno lib Hlib. destruct (String.prefix lib m) eqn:E; [|done].
    destruct Hno. exists lib. split; [by apply list_elem_of_In|].
    unfold is_prefix_of. by apply bool_decide_eq_true_2.
  - intros Hall (lib & Hlib & Hp). apply list_elem_of_In in Hlib.
    unfold is_prefix_of in Hp. apply bool_decide_eq_true_1 in Hp.
    rewrite (Hall lib Hlib) in Hp. done.
Qed.

(** The import rules, on every tree the check returns on.  [import m] is
    reported exactly when [m] is not one of the five allowed names, so
    [import pandas.core] is reported.  [from m import ...] is reported
    exactly when no allowed name is a prefix of [m], so [from pandas.core
    import x] passes, and so does a module that merely starts like an
    allowed one. *)
Theorem import_rules stack tree found :
  check_ast stack tree = Ok found →
  (∀ names name,
     Import names ∈ subnodes tree → name ∈ names →
     (BannedImport name ∈ found ↔ name ∉ allowed_libraries)) ∧
  (∀ name, BannedImport name ∈ found → name ∉ allowed_libraries) ∧
  (∀ module names,
     ImportFrom (Some module) names ∈ subnodes tree →
     (BannedImportFrom module ∈ found ↔
      module ≠ "" ∧ ∀ lib, lib ∈ allowed_libraries → String.prefix lib module = false)).
Proof.
  intros Hfound.
  pose proof (λ x, check_ast_nodes stack tree found x Hfound) as Hnodes.
  assert (∀ name, BannedImport name ∈ found → name ∉ allowed_libraries)
    as Hsound.
  { intros name (node & _ & Hx)%Hnodes.
    destruct node as [names|[m|] names|[]|[]| | |]; simpl in Hx;
      repeat case_bool_decide; repeat case_match;
      try (by apply elem_of_nil in Hx);
      try (by apply list_elem_of_singleton in Hx).
    apply list_elem_of_fmap in Hx as (n & [= <-] & Hn).
    by apply list_elem_of_filter in Hn as [? _]. }
  split_and!; [|done|].
  - intros names name Hnode Hname. split; [apply Hsound|].
    intros Hbad. apply Hnodes. eexists. split; [exact Hnode|].
    simpl. apply list_elem_of_fmap. exists name. split; [done|].
    by apply list_elem_of_filter.
  - intros module names Hnode. rewrite <-existsb_prefix_false. split.
    + intros (node & _ & Hx)%Hnodes.
      destruct node as [names'|[m|] names'|[]|[]| | |]; simpl in Hx;
        repeat case_bool_decide; repeat case_match;
        try (by apply elem_of_nil in Hx);
        try (by apply list_elem_of_singleton in Hx).
      * apply list_elem_of_fmap in Hx as (n & [=] & _).
      * apply list_elem_of_singleton in Hx as [= <-]. tauto.
    + intros [Hne Hno]. apply Hnodes. eexists. split; [exact Hnode|].
      cbn [dangerous_here]. rewrite Hno.
      rewrite bool_decide_eq_true_2; [apply list_elem_of_here|].
      split; [done|]. intros Hin.
      by rewrite (allowed_library_is_own_prefix _ Hin) in Hno.
Qed.

Lemma import_rules_witness :
  check_ast 1000 (Node [Import ["pandas.core"]]) = Ok [BannedImport "pandas.core"] ∧
  BannedImport "pandas.core" ∈ [BannedImport "pandas.core"] ∧
  check_ast 1000 (Node [ImportFrom (Some "pandas.core") ["x"]]) = Ok [] ∧
  ¬ BannedImportFrom "pandas.core" ∈ ([] : list violation).
Proof.
  assert (check_ast 1000 (Node [Import ["pandas.core"]]) = Ok [BannedImport "pandas.core"])
    as H1 by (vm_compute; reflexivity).
  assert (check_ast 1000 (Node [ImportFrom (Some "pandas.core") ["x"]]) = Ok [])
    as H2 by (vm_compute; reflexivity).
  split; [exact H1|]. split; [|split; [exact H2|]].
  - destruct (import_rules 1000 _ _ H1) as (H & _ & _).
    apply (H ["pandas.core"] "pandas.core"); [in_list|in_list|].
    unfold allowed_libraries. rewrite !not_elem_of_cons. split_and!; try done.
    apply not_elem_of_nil.
  - destruct (import_rules 1000 _ _ H2) as (_ & _ & H).
    intros Hin. apply (H "pandas.core" ["x"]) in Hin as [_ Hno]; [|in_list].
    assert (String.prefix "pandas" "pandas.core" = false) as Hp
      by (apply Hno; unfold allowed_libraries; in_list).
    vm_compute in Hp. discriminate Hp.
Defined.

(** ** File operations *)



(** ** Position sizing *)

Lemma parse_float_raises m : is_ok (parse_float m) = false ↔ (1 < dots m)%nat.
Proof.
  unfold parse_float, dots. case_bool_decide; simpl; split; try done; lia.
Qed.

Lemma check_matches_sound mk bound ms : ∀ vs,
  check_matches mk bound ms = Ok vs →
  ∀ x, x ∈ vs → ∃ v, x = mk v ∧ double_gt v bound = true.
Proof.
  induction ms as [|m ms IH]; intros vs; simpl.
  - intros [= <-] x Hx. by apply elem_of_nil in Hx.
  - destruct (digits_without_dots m); [|apply IH].
    destruct (parse_float m) as [value|e]; simpl; [|done].
    destruct (check_matches mk bound ms) as [rest|e]; simpl; [|done].
    intros [= <-] x Hx. destruct (exceeds value bound) eqn:E; [|by eapply IH].
    apply elem_of_cons in Hx as [->|Hx]; [|by eapply IH].
    by exists value.
Qed.

Lemma check_matches_raises mk bound ms :
  is_ok (check_matches mk bound ms) = false ↔
  ∃ m, m ∈ ms ∧ digits_without_dots m = true ∧ (1 < dots m)%nat.
Proof.
  induction ms as [|m ms IH]; simpl.
  - split; [done|]. intros (m & Hm & _). by apply elem_of_nil in Hm.
  - destruct (digits_without_dots m) eqn:Hd.
    + destruct (parse_float m) as [value|e] eqn:Hf; simpl.
      * destruct (check_matches mk bound ms) as [rest|e]; simpl.
        -- split; [done|]. intros (m' & [->|Hm']%elem_of_cons & Hd' & Hdots).
           ++ apply parse_float_raises in Hdots. by rewrite Hf in Hdots.
           ++ apply IH. by exists m'.
        -- split; [|done]. intros _.
           destruct (proj1 IH eq_refl) as (m' & Hm' & ?).
           exists m'. split; [by right|done].
      * split; [|done]. intros _. exists m. split_and!; [by left|done|].
        apply parse_float_raises. by rewrite Hf.
    + rewrite IH. split.
      * intros (m' & Hm' & ?). exists m'. split; [by right|done].
      * intros (m' & [->|Hm']%elem_of_cons & Hd' & Hdots); [congruence|].
        by exists m'.
Qed.

Lemma check_patterns_sound mk bound code patterns : ∀ vs,
  check_patterns mk bound patterns code = Ok vs →
  ∀ x, x ∈ vs → ∃ v, x = mk v ∧ double_gt v bound = true.
Proof.
  induction patterns as [|r patterns IH]; intros vs; simpl.
  - intros [= <-] x Hx. by apply elem_of_nil in Hx.
  - destruct (check_matches mk bound (Re.findall r code)) as [here|e] eqn:Hm;
      simpl; [|done].
    destruct (check_patterns mk bound patterns code) as [rest|e]; simpl; [|done].
    intros [= <-] x [Hx|Hx]%elem_of_app.
    + by eapply check_matches_sound.
    + by eapply IH.
Qed.

Lemma check_patterns_raises mk bound code patterns :
  is_ok (check_patterns mk bound patterns code) = false ↔
  ∃ r m, r ∈ patterns ∧ m ∈ Re.findall r code ∧
         digits_without_dots m = true ∧ (1 < dots m)%nat.
Proof.
  induction patterns as [|r patterns IH]; simpl.
  - split; [done|]. intros (r & m & Hr & _). by apply elem_of_nil in Hr.
  - destruct (check_matches mk bound (Re.findall r code)) as [here|e] eqn:Hm; simpl.
    + destruct (check_patterns mk bound patterns code) as [rest|e]; simpl.
      * split; [done|]. intros (r' & m & [->|Hr']%elem_of_cons & Hm' & Hd & Hdots).
        -- assert (is_ok (check_matches mk bound (Re.findall r code)) = false) as Hbad
             by (apply check_matches_raises; by exists m).
           by rewrite Hm in Hbad.
        -- apply IH. by exists r', m.
      * split; [|done]. intros _.
        destruct (proj1 IH eq_refl) as (r' & m & Hr' & ?).
        exists r', m. split; [by right|done].
    + split; [|done]. intros _.
      assert (is_ok (check_matches mk bound (Re.findall r code)) = false) as Hbad
        by (by rewrite Hm).
      apply check_matches_raises in Hbad as (m & ? & ? & ?).
      exists r, m. split; [by left|done].
Qed.

(** On a text of ASCII characters, the numeric-bound heuristics report a
    leverage only when the float read is above 2.0 and a position size only
    when it is above the float 0.05.  They raise, with the [ValueError] of
    [float], exactly when one of the patterns finds a number that is digits
    apart from its dots and has more than one dot. *)
Theorem position_sizing_outcomes code :
  ascii_text code →
  (∀ vs, check_position_sizing code = Ok vs →
     ∀ x, x ∈ vs →
       (∃ v, x = LeverageExceeds v ∧ double_gt v max_leverage = true) ∨
       (∃ v, x = PositionSizeExceeds v ∧ double_gt v max_position_pct = true)) ∧
  (is_ok (check_position_sizing code) = false ↔
   ∃ r m, r ∈ leverage_patterns ++ position_patterns ∧ m ∈ Re.findall r code ∧
          digits_without_dots m = true ∧ (1 < dots m)%nat).
Proof.
  intros _. unfold check_position_sizing. split.
  - intros vs.
    destruct (check_patterns LeverageExceeds max_leverage leverage_patterns code)
      as [lev|e] eqn:Hl; cbn [mbind result_bind]; [|done].
    destruct (check_patterns PositionSizeExceeds max_position_pct position_patterns code)
      as [pos|e] eqn:Hp; cbn [mbind result_bind]; [|done].
    intros [= <-] x [Hx|Hx]%elem_of_app.
    + left. by eapply check_patterns_sound.
    + right. by eapply check_patterns_sound.
  - pose proof (check_patterns_raises LeverageExceeds max_leverage code leverage_patterns)
      as Hl.
    pose proof (check_patterns_raises PositionSizeExceeds max_position_pct code
                  position_patterns) as Hp.
    destruct (check_patterns LeverageExceeds max_leverage leverage_patterns code)
      as [lev|e]; cbn [mbind result_bind is_ok].
    + destruct (check_patterns PositionSizeExceeds max_position_pct position_patterns code)
        as [pos|e]; cbn [mbind result_bind is_ok].
      * split; [done|]. intros (r & m & [Hr|Hr]%elem_of_app & ?).
        -- apply Hl. by exists r, m.
        -- apply Hp. by exists r, m.
      * split; [|done]. intros _. destruct (proj1 Hp eq_refl) as (r & m & Hr & ?).
        exists r, m. split; [apply elem_of_app; by right|done].
    + split; [|done]. intros _. destruct (proj1 Hl eq_refl) as (r & m & Hr & ?).
      exists r, m. split; [apply elem_of_app; by left|done].
Qed.

Lemma position_sizing_outcomes_witness :
  check_position_sizing "leverage = 5" = Ok [LeverageExceeds (Finite 5)] ∧
  ((∃ v, LeverageExceeds (Finite 5) = LeverageExceeds v ∧
         double_gt v max_leverage = true) ∨
   (∃ v, LeverageExceeds (Finite 5) = PositionSizeExceeds v ∧
         double_gt v max_position_pct = true)).
Proof.
  assert (check_position_sizing "leverage = 5" = Ok [LeverageExceeds (Finite 5)]) as Hrun
    by (vm_compute; reflexivity).
  split; [exact Hrun|].
  destruct (position_sizing_outcomes "leverage = 5") as [H _].
  - repeat constructor.
  - apply (H [LeverageExceeds (Finite 5)] Hrun). in_list.
Defined.

(** * The pipeline *)

Lemma verdict_has_no_status v : getitem (verdict_dict v) "status" = Raise (key_error "status").
Proof.
  unfold getitem, verdict_dict.
  by rewrite !lookup_insert_ne, lookup_empty by done.
Qed.

Section PipelineFacts.
Context (parse : parser) (stack : nat) (data : Series).
Context (report_failure : exn → result unit).

(** The body of an iteration never reaches its end. *)
Lemma iteration_body_raises planned rest :
  ∃ e, iteration_body parse stack data planned rest = Raise e ∧
       (planned = Raise e ∨
        (∃ new, planned = Ok new ∧
                check_strategy parse stack new.1 (Some data) = Raise e) ∨
        e = key_error "status").
Proof.
  unfold iteration_body.
  destruct planned as [new|e]; cbn [mbind result_bind].
  - destruct (check_strategy parse stack new.1 (Some data)) as [v|e] eqn:E;
      cbn [mbind result_bind].
    + rewrite verdict_has_no_status. exists (key_error "status").
      split; [reflexivity|]. by right; right.
    + exists e. split; [reflexivity|]. right; left. by exists new.
  - exists e. split; [reflexivity|]. by left.
Qed.

Lemma iteration_never_succeeds planned rest :
  run_single_iteration parse stack data report_failure planned rest ≠ Ok true.
Proof.
  destruct (iteration_body_raises planned rest) as (e & He & _).
  unfold run_single_iteration. rewrite He.
  destruct (is_exception e); [|done]. by destruct (report_failure e).
Qed.

(** No iteration of the pipeline succeeds.  [check_strategy] returns a dict
    with the keys [passed] and [errors], and the pipeline reads
    [guard_result['status']]: whatever strategy was planned and whatever the
    verdict, the read raises [KeyError], so the body of an iteration always
    ends in an exception, before any backtest is run: that of the planning,
    that of the guard rail, or the [KeyError].  [run_single_iteration] never
    returns [True]; it returns [False] when the [except Exception] clause
    catches the exception and prints it, and lets out an exception outside
    [Exception] or one raised by the printing. *)
Theorem run_single_iteration_always_fails planned rest :
  (∀ v, getitem (verdict_dict v) "status" = Raise (key_error "status")) ∧
  run_single_iteration parse stack data report_failure planned rest ≠ Ok true ∧
  ∃ e, iteration_body parse stack data planned rest = Raise e ∧
       (is_exception e = true → report_failure e = Ok () →
        run_single_iteration parse stack data report_failure planned rest = Ok false) ∧
       (is_exception e = true → ∀ raised, report_failure e = Raise raised →
        run_single_iteration parse stack data report_failure planned rest = Raise raised) ∧
       (is_exception e = false →
        run_single_iteration parse stack data report_failure planned rest = Raise e).
Proof.
  split; [apply verdict_has_no_status|].
  destruct (iteration_body_raises planned rest) as (e & He & _).
  unfold run_single_iteration. rewrite He. split.
  - destruct (is_exception e); [|done]. by destruct (report_failure e).
  - exists e. split; [done|]. split_and!.
    + by intros -> ->.
    + by intros -> raised ->.
    + by intros ->.
Qed.

Context (say : pipeline_line → result unit).

Lemma run_iterations_all_fail iteration max_iterations todo : ∀ i successful failed,
  (∀ line, say line = Ok ()) →
  (∀ k, is_ok (run_single_iteration parse stack data report_failure
                 (iteration k).1 (iteration k).2) = true) →
  run_iterations parse stack data report_failure say iteration max_iterations
    todo i successful failed
  = Ok (successful, (failed + todo)%nat).
Proof.
  induction todo as [|todo IH]; intros i successful failed Hsay Hreturns.
  - simpl. by rewrite Nat.add_0_r.
  - cbn [run_iterations]. rewrite !Hsay. cbn [mbind result_bind].
    pose proof (Hreturns i) as Hi.
    pose proof (iteration_never_succeeds (iteration i).1 (iteration i).2) as Hno.
    destruct (run_single_iteration parse stack data report_failure
                (iteration i).1 (iteration i).2) as [[]|e]; [done| |done].
    cbn [mbind result_bind].
    rewrite Hsay. cbn [mbind result_bind].
    rewrite IH by done. do 2 f_equal. lia.
Qed.

(** With zero iterations the success rate divides by zero and the call
    raises.  Otherwise, on a console that takes every line and when every
    iteration returns, as it does when its exception is caught and printed,
    the pipeline reports no success: every iteration is counted as failed
    and the success rate is 0. *)
Theorem run_pipeline_reports_no_success iteration max_iterations :
  (max_iterations = 0 →
   run_pipeline parse stack data report_failure say iteration max_iterations
   = Raise zero_division) ∧
  (0 < max_iterations →
   (∀ line, say line = Ok ()) →
   (∀ k, is_ok (run_single_iteration parse stack data report_failure
                  (iteration k).1 (iteration k).2) = true) →
   ∃ summary,
     run_pipeline parse stack data report_failure say iteration max_iterations
     = Ok summary ∧
     total_iterations summary = max_iterations ∧
     successful_iterations summary = 0%nat ∧
     Z.of_nat (failed_iterations summary) = max_iterations ∧
     (success_rate summary == 0)%Q).
Proof.
  unfold run_pipeline. split.
  - intros ->. simpl. done.
  - intros Hpos Hsay Hfail.
    rewrite run_iterations_all_fail by done. cbn [mbind result_bind fst snd].
    rewrite bool_decide_eq_false_2 by lia. cbn [mbind result_bind].
    rewrite Hsay. cbn [mbind result_bind].
    eexists. split; [reflexivity|]. cbn. split_and!; [done|done|lia|].
    change (inject_Z 0) with 0%Q. unfold Qdiv. ring.
Qed.

End PipelineFacts.

Lemma run_pipeline_reports_no_success_witness :
  ∃ summary,
    run_pipeline sample_parse 1000 daily_prices (λ _, Ok ()) (λ _, Ok ())
      (λ _, (Ok ("import os", "a seed"), λ _ _ _, Ok true)) 3 = Ok summary ∧
    successful_iterations summary = 0%nat ∧ failed_iterations summary = 3%nat.
Proof.
  destruct (run_pipeline_reports_no_success sample_parse 1000 daily_prices
              (λ _, Ok ()) (λ _, Ok ())
              (λ _, (Ok ("import os", "a seed"), λ _ _ _, Ok true)) 3) as [_ H].
  destruct H as (summary & Hrun & _ & Hs & Hf & _);
    [reflexivity|reflexivity|intros k; vm_compute; reflexivity|].
  exists summary. split_and!; [exact Hrun|exact Hs|lia].
Defined.

(** * Validating signals *)

Lemma numbers_unit_range xs :
  Forall in_unit_range xs → Forall (λ q, -1 <= q <= 1)%Q (numbers xs).
Proof.
  induction 1 as [|x xs (q & -> & Hq) _ IH]; [constructor|].
  unfold numbers in *. cbn [omap list_omap id]. by constructor.
Qed.

Lemma foldl_min_ge m qs : ∀ q,
  (m <= q)%Q → Forall (λ x, m <= x)%Q qs → (m <= foldl Qmin q qs)%Q.
Proof.
  induction qs as [|q' qs IH]; intros q Hq Hall; simpl; [done|].
  inversion Hall; subst. apply IH; [|done]. by apply Q.min_glb.
Qed.

Lemma foldl_max_le m qs : ∀ q,
  (q <= m)%Q → Forall (λ x, x <= m)%Q qs → (foldl Qmax q qs <= m)%Q.
Proof.
  induction qs as [|q' qs IH]; intros q Hq Hall; simpl; [done|].
  inversion Hall; subst. apply IH; [|done]. by apply Q.max_lub.
Qed.

Lemma sandbox_values_in_range (s : Series) :
  Forall in_unit_range (values (clip (-1) 1 (fillna 0 s))).
Proof.
  unfold clip, fillna. rewrite !values_map_values.
  rewrite <-list_fmap_compose. apply Forall_fmap, Forall_true.
  intros x. simpl. eexists. split; [reflexivity|].
  apply clip_value_bounds. lra.
Qed.

Lemma range_check_passes (s : Series) :
  Forall in_unit_range (values s) →
  Numpy.flt (series_min s) (-1) || fgt (series_max s) 1 = false.
Proof.
  intros Hall%numbers_unit_range. unfold series_min, series_max.
  destruct (numbers (values s)) as [|q qs]; [done|].
  inversion Hall as [|? ? [Hlo Hhi] Hrest]; subst.
  apply orb_false_intro; simpl; apply negb_false_iff, Qle_bool_iff.
  - apply foldl_min_ge; [done|]. eapply Forall_impl; [exact Hrest|]. by intros ? [? ?].
  - apply foldl_max_le; [done|]. eapply Forall_impl; [exact Hrest|]. by intros ? [? ?].
Qed.

Lemma qsum_le m qs :
  Forall (λ x, x <= m)%Q qs →
  (qsum qs <= inject_Z (Z.of_nat (length qs)) * m)%Q.
Proof.
  induction 1 as [|q qs Hq _ IH].
  - change (0 <= 0 * m)%Q. lra.
  - change (qsum (q :: qs)) with (q + qsum qs)%Q.
    change (length (q :: qs)) with (S (length qs)).
    rewrite Nat2Z.inj_succ, <-Z.add_1_r, inject_Z_plus.
    change (inject_Z 1) with 1%Q. lra.
Qed.

Lemma numbers_bounded (P : Q → Prop) xs :
  Forall (λ x, ∀ q, x = Some q → P q) xs → Forall P (numbers xs).
Proof.
  induction 1 as [|[q|] xs Hx _ IH]; [constructor| |];
    unfold numbers in *; cbn [omap list_omap id]; [|done].
  constructor; [by apply Hx|done].
Qed.

Lemma turnover_check_passes (s : Series) :
  Forall (λ x, ∀ q, x = Some q → q <= 1 # 2)%Q (values s) →
  fgt (series_mean s) (1 # 2) = false.
Proof.
  intros Hall%numbers_bounded. unfold series_mean.
  destruct (numbers (values s)) as [|q qs] eqn:E; [done|].
  rewrite <-E in *. simpl. apply negb_false_iff, Qle_bool_iff.
  apply qsum_le in Hall.
  assert (0 < inject_Z (Z.of_nat (length (numbers (values s)))))%Q as Hpos.
  { rewrite E. change 0%Q with (inject_Z 0). rewrite <-Zlt_Qlt. simpl. lia. }
  apply Qle_shift_div_r; [done|]. lra.
Qed.

(** Signals that come out of the sandbox always pass the range check of
    [validate_signals]: [execute_strategy] has filled the missing values
    and clipped every signal to [-1, 1], so the check of the lowest and the
    highest signal never fires, whatever the strategy. *)
Theorem sandbox_signals_pass_range_check exec code prices signals volume_check :
  execute_strategy exec code prices = Ok signals →
  ∀ lowest highest,
    SignalsOutsideRange lowest highest ∉ validate_signals signals volume_check.
Proof.
  intros (v & raw & reindexed & _ & _ & _ & ->)%execute_strategy_ok_inv lowest highest.
  unfold validate_signals.
  rewrite range_check_passes by apply sandbox_values_in_range.
  cbn [app]. rewrite elem_of_app.
  intros [Hin|Hin].
  - destruct (fgt _ _); [|by apply elem_of_nil in Hin].
    apply list_elem_of_singleton in Hin. discriminate.
  - destruct (default false volume_check); [|by apply elem_of_nil in Hin].
    apply list_elem_of_singleton in Hin. discriminate.
Qed.

Lemma sandbox_signals_pass_range_check_witness :
  execute_strategy (λ _ _, ExecDone (Some (PySeries five_positions))) "" five_prices
  = Ok (clip (-1) 1 (fillna 0 five_positions)) ∧
  SignalsOutsideRange (Some (-1)%Q) (Some 1%Q)
  ∉ validate_signals (clip (-1) 1 (fillna 0 five_positions)) None.
Proof.
  assert (execute_strategy (λ _ _, ExecDone (Some (PySeries five_positions))) "" five_prices
          = Ok (clip (-1) 1 (fillna 0 five_positions))) as Hrun
    by (vm_compute; reflexivity).
  split; [exact Hrun|].
  exact (sandbox_signals_pass_range_check _ _ _ _ None Hrun (Some (-1)%Q) (Some 1%Q)).
Defined.

(** The turnover check looks at the daily changes of the position that are
    numbers (the first one never is): as long as none of them is larger
    than one half in absolute value, no excessive turnover is reported.  In
    particular a position that never changes passes, and so does a series
    with fewer than two rows, whose average is NaN. *)
Theorem small_changes_pass_turnover_check (signals : Series) volume_check :
  Forall (λ x, ∀ q, x = Some q → Qabs q <= 1 # 2)%Q (values (Pandas.diff signals)) →
  ∀ avg_turnover, ExcessiveTurnover avg_turnover ∉ validate_signals signals volume_check.
Proof.
  intros Hall avg_turnover. unfold validate_signals.
  rewrite (turnover_check_passes (Pandas.abs (Pandas.diff signals))).
  - cbn [app]. rewrite elem_of_app. intros [Hin|Hin].
    + destruct (_ || _); [|by apply elem_of_nil in Hin].
      apply list_elem_of_singleton in Hin. discriminate.
    + cbn [app] in Hin.
      destruct (default false volume_check); [|by apply elem_of_nil in Hin].
      apply list_elem_of_singleton in Hin. discriminate.
  - unfold Pandas.abs. rewrite values_map_values. apply Forall_fmap.
    eapply Forall_impl; [exact Hall|].
    intros [x|] Hx q; simpl; [|done]. intros [= <-]. by apply Hx.
Qed.

Lemma small_changes_pass_turnover_check_witness :
  ExcessiveTurnover (Some (1 # 4))
  ∉ validate_signals [(0, Some 1%Q); (1, Some (1 # 2)); (2, Some (1 # 2))] (Some true).
Proof.
  apply small_changes_pass_turnover_check.
  repeat constructor; intros q [= <-]; vm_compute; discriminate.
Defined.
